(** * StackIt: notification triggers and the question page's mutations

    A shallow embedding of
      - the four PL/pgSQL trigger functions [create_answer_notification],
        [create_accept_notification], [create_vote_notification] (first
        notification migration) and [create_comment_notification] (comments
        migration), together with the [AFTER ... FOR EACH ROW] triggers that
        attach them to the tables;
      - [handleVote] and [acceptAnswer] of [src/pages/QuestionDetail.tsx].

    Tables are lists of rows in insertion order.  SQL [NULL] is [None], and
    SQL conditions are three-valued.  Only the columns that the embedded code
    reads or writes are kept in the row records. *)

From Stdlib Require Import String Ascii List Bool ZArith Lia.
Import ListNotations.
Local Open Scope string_scope.

(** ** SQL values *)

Definition uuid := string.
Definition text := string.

Definition uuid_eqb : uuid -> uuid -> bool := String.eqb.

(** [a != b] on nullable uuids: unknown as soon as one side is NULL. *)
Definition sql_ne (a b : option uuid) : option bool :=
  match a, b with
  | Some x, Some y => Some (negb (uuid_eqb x y))
  | _, _ => None
  end.

Definition sql_eq_int (a b : option Z) : option bool :=
  match a, b with
  | Some x, Some y => Some (Z.eqb x y)
  | _, _ => None
  end.

Definition is_null {A : Type} (a : option A) : option bool :=
  match a with
  | None => Some true
  | Some _ => Some false
  end.

Definition is_not_null {A : Type} (a : option A) : option bool :=
  match a with
  | None => Some false
  | Some _ => Some true
  end.

(** Three-valued [AND] and [OR]. *)
Definition sql_and (a b : option bool) : option bool :=
  match a, b with
  | Some false, _ | _, Some false => Some false
  | Some true, Some true => Some true
  | _, _ => None
  end.

Definition sql_or (a b : option bool) : option bool :=
  match a, b with
  | Some true, _ | _, Some true => Some true
  | Some false, Some false => Some false
  | _, _ => None
  end.

(** An [IF] branch, or a [CASE WHEN] arm, is taken only when its condition
    is TRUE; FALSE and NULL both skip it. *)
Definition sql_true (c : option bool) : bool :=
  match c with
  | Some true => true
  | _ => false
  end.

(** [a || b] on text: NULL as soon as one operand is NULL. *)
Definition sql_concat (a b : option text) : option text :=
  match a, b with
  | Some x, Some y => Some (x ++ y)
  | _, _ => None
  end.

(** [CASE WHEN c THEN x ELSE y END]. *)
Definition sql_case {A : Type} (c : option bool) (x y : A) : A :=
  if sql_true c then x else y.

(** The one-character text holding a double quote. *)
Definition dquote : text := String (ascii_of_nat 34) EmptyString.

(** ** Rows and tables

    The columns of [questions] and [answers] and their nullability are those
    of the [Question] and [Answer] interfaces of the question page, with the
    [question_id] that [submitAnswer] always fills; those of [comments] are
    in its [CREATE TABLE]. *)

Record question := mkQuestion {
  q_id : uuid;
  q_user_id : uuid;
  q_title : text;
  q_accepted_answer_id : option uuid;
  q_is_answered : bool
}.

Record answer := mkAnswer {
  a_id : uuid;
  a_question_id : uuid;
  a_user_id : uuid;
  a_is_accepted : bool
}.

(** Modelled from the spec: the [CREATE TABLE] of [public.votes] is missing;
    the data model makes [user_id] and [vote_type] mandatory and has a vote
    point at a question or at an answer through two nullable columns. *)
Record vote := mkVote {
  v_id : uuid;
  v_user_id : uuid;
  v_question_id : option uuid;
  v_answer_id : option uuid;
  v_vote_type : Z
}.

Record comment := mkComment {
  c_id : uuid;
  c_content : text;
  c_user_id : uuid;
  c_question_id : option uuid;
  c_answer_id : option uuid
}.

(** A row of [public.notifications] as the triggers write it: the six columns
    of their [INSERT] lists, and [read], which they leave to its default. *)
Record notification := mkNotification {
  n_user_id : option uuid;
  n_type : option text;
  n_title : option text;
  n_message : option text;
  n_question_id : option uuid;
  n_answer_id : option uuid;
  n_read : bool
}.

(** Modelled from the spec: the [CREATE TABLE] of [public.notifications] is
    missing; the record shape gives its column [read] the default false. *)
Definition read_default : bool := false.

Record database := mkDatabase {
  questions : list question;
  answers : list answer;
  votes : list vote;
  comments : list comment;
  notifications : list notification
}.

Definition set_questions (qs : list question) (db : database) : database :=
  mkDatabase qs (answers db) (votes db) (comments db) (notifications db).

Definition set_answers (l : list answer) (db : database) : database :=
  mkDatabase (questions db) l (votes db) (comments db) (notifications db).

Definition set_votes (l : list vote) (db : database) : database :=
  mkDatabase (questions db) (answers db) l (comments db) (notifications db).

Definition set_comments (l : list comment) (db : database) : database :=
  mkDatabase (questions db) (answers db) (votes db) l (notifications db).

Definition set_notifications (l : list notification) (db : database) : database :=
  mkDatabase (questions db) (answers db) (votes db) (comments db) l.

(** ** Statements that may raise *)

Inductive sql_error :=
| check_violation (relation : text).

Inductive result (A : Type) :=
| Ok (a : A)
| Raise (e : sql_error).

Arguments Ok {A} a.
Arguments Raise {A} e.

Definition bind {A B : Type} (r : result A) (k : A -> result B) : result B :=
  match r with
  | Ok a => k a
  | Raise e => Raise e
  end.

Notation "x <- r ;; k" := (bind r (fun x => k))
  (at level 61, r at next level, right associativity).

(** ** Queries of the trigger functions *)

(** [SELECT user_id, title INTO o, t FROM questions WHERE id = qid]: the first
    matching row, and NULL in both targets when there is none. *)
Definition select_question_owner_title (db : database) (qid : uuid)
  : option uuid * option text :=
  match find (fun q => uuid_eqb (q_id q) qid) (questions db) with
  | Some q => (Some (q_user_id q), Some (q_title q))
  | None => (None, None)
  end.

(** [SELECT user_id INTO o FROM answers WHERE id = aid]. *)
Definition select_answer_author (db : database) (aid : uuid) : option uuid :=
  match find (fun a => uuid_eqb (a_id a) aid) (answers db) with
  | Some a => Some (a_user_id a)
  | None => None
  end.

(** The rows of [answers a JOIN questions q ON q.id = a.question_id
    WHERE a.id = aid], projected on [(a.user_id, q.title)]. *)
Definition join_answer_question (db : database) (aid : uuid) : list (uuid * text) :=
  flat_map
    (fun a =>
       if uuid_eqb (a_id a) aid
       then map (fun q => (a_user_id a, q_title q))
                (filter (fun q => uuid_eqb (q_id q) (a_question_id a)) (questions db))
       else [])
    (answers db).

(** [SELECT a.user_id, q.title INTO o, t FROM answers a JOIN questions q ...]. *)
Definition select_answer_owner_question_title (db : database) (aid : uuid)
  : option uuid * option text :=
  match join_answer_question db aid with
  | (o, t) :: _ => (Some o, Some t)
  | [] => (None, None)
  end.

(** A [CHECK] constraint rejects a row only when its condition is FALSE. *)
Definition sql_check (c : option bool) : bool :=
  match c with
  | Some false => false
  | _ => true
  end.

(** The table constraint [comments_has_target] of [public.comments]. *)
Definition comments_has_target (c : comment) : bool :=
  sql_check
    (sql_or
       (sql_and (is_not_null (c_question_id c)) (is_null (c_answer_id c)))
       (sql_and (is_null (c_question_id c)) (is_not_null (c_answer_id c)))).

(** ** The trigger functions

    The [CREATE TABLE] of [public.notifications] is not part of the sources at
    hand, so its constraints are a parameter: [notifications_check r] tells
    whether the table accepts the row [r].  An [INSERT] of a rejected row
    raises, and since none of the trigger functions has an [EXCEPTION] block
    the error leaves the function. *)

Section Triggers.

Variable notifications_check : notification -> bool.

(** [INSERT INTO public.notifications (user_id, type, title, message,
    question_id, answer_id) VALUES (...)]; [read] takes its default. *)
Definition insert_notification (db : database)
    (user_id : option uuid) (type title message : option text)
    (question_id answer_id : option uuid) : result database :=
  let row :=
    mkNotification user_id type title message question_id answer_id read_default in
  if notifications_check row
  then Ok (set_notifications (notifications db ++ [row]) db)
  else Raise (check_violation "notifications").

Definition create_answer_notification (db : database) (NEW : answer)
  : result (database * answer) :=
  let '(question_owner_id, question_title) :=
    select_question_owner_title db (a_question_id NEW) in
  db1 <- (if sql_true (sql_ne question_owner_id (Some (a_user_id NEW)))
          then insert_notification db
                 question_owner_id
                 (Some "answer")
                 (Some "New Answer")
                 (sql_concat
                    (sql_concat (Some ("Someone answered your question: " ++ dquote))
                                question_title)
                    (Some dquote))
                 (Some (a_question_id NEW))
                 (Some (a_id NEW))
          else Ok db) ;;
  Ok (db1, NEW).

Definition create_accept_notification (db : database) (OLD NEW : question)
  : result (database * question) :=
  db1 <- (if sql_true
               (sql_and (is_not_null (q_accepted_answer_id NEW))
                        (sql_or (is_null (q_accepted_answer_id OLD))
                                (sql_ne (q_accepted_answer_id OLD)
                                        (q_accepted_answer_id NEW))))
          then
            let answer_author_id :=
              match q_accepted_answer_id NEW with
              | Some aid => select_answer_author db aid
              | None => None
              end in
            if sql_true (sql_ne answer_author_id (Some (q_user_id NEW)))
            then insert_notification db
                   answer_author_id
                   (Some "accepted")
                   (Some "Answer Accepted")
                   (sql_concat
                      (sql_concat (Some ("Your answer was accepted for: " ++ dquote))
                                  (Some (q_title NEW)))
                      (Some dquote))
                   (Some (q_id NEW))
                   (q_accepted_answer_id NEW)
            else Ok db
          else Ok db) ;;
  Ok (db1, NEW).

(** The three local variables of [create_vote_notification] after its
    [IF ... ELSIF ... END IF]: [content_owner_id], [content_title] and
    [vote_target], all NULL when neither branch runs. *)
Definition vote_target_lookup (db : database) (NEW : vote)
  : option uuid * option text * option text :=
  match v_question_id NEW, v_answer_id NEW with
  | Some qid, _ => (select_question_owner_title db qid, Some "question")
  | None, Some aid => (select_answer_owner_question_title db aid, Some "answer")
  | None, None => (None, None, None)
  end.

Definition create_vote_notification (db : database) (NEW : vote)
  : result (database * vote) :=
  db1 <- (if sql_true (sql_eq_int (Some (v_vote_type NEW)) (Some 1%Z))
          then
            let '(content_owner_id, content_title, vote_target) :=
              vote_target_lookup db NEW in
            if sql_true (sql_and (is_not_null content_owner_id)
                                 (sql_ne content_owner_id (Some (v_user_id NEW))))
            then insert_notification db
                   content_owner_id
                   (Some "vote")
                   (Some "Upvoted")
                   (sql_concat
                      (sql_concat
                         (sql_concat
                            (sql_concat (Some "Someone upvoted your ") vote_target)
                            (Some (" on: " ++ dquote)))
                         content_title)
                      (Some dquote))
                   (sql_case (is_not_null (v_question_id NEW)) (v_question_id NEW) None)
                   (sql_case (is_not_null (v_answer_id NEW)) (v_answer_id NEW) None)
            else Ok db
          else Ok db) ;;
  Ok (db1, NEW).

(** The three local variables of [create_comment_notification] after its
    [IF ... ELSIF ... END IF]: [target_owner_id], [question_title] and
    [notification_type]. *)
Definition comment_target_lookup (db : database) (NEW : comment)
  : option uuid * option text * option text :=
  match c_question_id NEW, c_answer_id NEW with
  | Some qid, _ => (select_question_owner_title db qid, Some "comment_question")
  | None, Some aid =>
      (select_answer_owner_question_title db aid, Some "comment_answer")
  | None, None => (None, None, None)
  end.

Definition create_comment_notification (db : database) (NEW : comment)
  : result (database * comment) :=
  let '(target_owner_id, question_title, notification_type) :=
    comment_target_lookup db NEW in
  db1 <- (if sql_true (sql_and (is_not_null target_owner_id)
                               (sql_ne target_owner_id (Some (c_user_id NEW))))
          then insert_notification db
                 target_owner_id
                 notification_type
                 (Some "New Comment")
                 (sql_concat
                    (sql_concat
                       (sql_concat
                          (sql_concat (Some "Someone commented on your ")
                             (sql_case (is_not_null (c_question_id NEW))
                                       (Some "question") (Some "answer")))
                          (Some (": " ++ dquote)))
                       question_title)
                    (Some dquote))
                 (sql_case (is_not_null (c_question_id NEW)) (c_question_id NEW) None)
                 (sql_case (is_not_null (c_answer_id NEW)) (c_answer_id NEW) None)
          else Ok db) ;;
  Ok (db1, NEW).

(** ** The triggers and the statements that fire them

    All four triggers are [AFTER ... FOR EACH ROW]: the function runs on the
    table as the statement left it, the row it returns is ignored, and an
    error it raises aborts the statement.  A statement that raises leaves the
    caller with the database it started from. *)

Definition trigger_answer_notification (db : database) (NEW : answer)
  : result database :=
  r <- create_answer_notification db NEW ;; Ok (fst r).

Definition trigger_accept_notification (db : database) (OLD NEW : question)
  : result database :=
  r <- create_accept_notification db OLD NEW ;; Ok (fst r).

Definition trigger_vote_notification (db : database) (NEW : vote)
  : result database :=
  r <- create_vote_notification db NEW ;; Ok (fst r).

Definition trigger_comment_notification (db : database) (NEW : comment)
  : result database :=
  r <- create_comment_notification db NEW ;; Ok (fst r).

(** [INSERT INTO answers]. *)
Definition insert_answer (db : database) (row : answer) : result database :=
  trigger_answer_notification (set_answers (answers db ++ [row]) db) row.

(** [INSERT INTO votes]. *)
Definition insert_vote (db : database) (row : vote) : result database :=
  trigger_vote_notification (set_votes (votes db ++ [row]) db) row.

(** [INSERT INTO comments], under the table's [CHECK]. *)
Definition insert_comment (db : database) (row : comment) : result database :=
  if comments_has_target row
  then trigger_comment_notification (set_comments (comments db ++ [row]) db) row
  else Raise (check_violation "comments").

(** [UPDATE questions SET ... WHERE ...]: every selected row is rewritten,
    then the trigger runs once per rewritten row with its old and new
    contents. *)
Definition update_questions (db : database)
    (where_ : question -> bool) (set_ : question -> question) : result database :=
  fold_left
    (fun acc OLD => db' <- acc ;; trigger_accept_notification db' OLD (set_ OLD))
    (filter where_ (questions db))
    (Ok (set_questions
           (map (fun q => if where_ q then set_ q else q) (questions db)) db)).

(** [UPDATE answers], [UPDATE votes] and [DELETE FROM votes]: the migrations
    at hand attach no trigger to them. *)
Definition update_answers (db : database)
    (where_ : answer -> bool) (set_ : answer -> answer) : database :=
  set_answers (map (fun a => if where_ a then set_ a else a) (answers db)) db.

Definition update_votes (db : database)
    (where_ : vote -> bool) (set_ : vote -> vote) : database :=
  set_votes (map (fun v => if where_ v then set_ v else v) (votes db)) db.

Definition delete_votes (db : database) (where_ : vote -> bool) : database :=
  set_votes (filter (fun v => negb (where_ v)) (votes db)) db.

(** ** The question page

    A supabase call resolves to a pair of data and error and does not throw;
    [handleVote] and [acceptAnswer] never look at the error, so a statement
    that raised simply leaves the database as it was and the function goes
    on. *)

Definition run (db : database) (r : result database) : database :=
  match r with
  | Ok db' => db'
  | Raise _ => db
  end.

Inductive targetType := target_question | target_answer.

(** The column of [votes] that [handleVote] filters on and fills. *)
Definition column (t : targetType) (v : vote) : option uuid :=
  match t with
  | target_question => v_question_id v
  | target_answer => v_answer_id v
  end.

(** [.eq(col, x)]: NULL matches nothing. *)
Definition eq_filter (c : option uuid) (x : uuid) : bool :=
  match c with
  | Some y => uuid_eqb y x
  | None => false
  end.

(** [.single()]: the row when the query has exactly one, no data otherwise. *)
Definition single {A : Type} (rows : list A) : option A :=
  match rows with
  | [r] => Some r
  | _ => None
  end.

(** The rows selected by [.eq('user_id', user.id).eq(column, targetId)]. *)
Definition votes_of (db : database) (u : uuid) (t : targetType) (targetId : uuid)
  : list vote :=
  filter (fun v => uuid_eqb (v_user_id v) u && eq_filter (column t v) targetId)
         (votes db).

(** [handleVote(targetType, targetId, voteType)] for the logged-in [user];
    [new_id] is the id that the database gives a row it inserts. *)
Definition handleVote (user : option uuid) (t : targetType) (targetId : uuid)
    (voteType : Z) (new_id : uuid) (db : database) : database :=
  match user with
  | None => db
  | Some u =>
      match single (votes_of db u t targetId) with
      | Some existingVote =>
          if Z.eqb (v_vote_type existingVote) voteType
          then delete_votes db (fun v => uuid_eqb (v_id v) (v_id existingVote))
          else update_votes db
                 (fun v => uuid_eqb (v_id v) (v_id existingVote))
                 (fun v => mkVote (v_id v) (v_user_id v) (v_question_id v)
                                  (v_answer_id v) voteType)
      | None =>
          run db
            (insert_vote db
               (match t with
                | target_question => mkVote new_id u (Some targetId) None voteType
                | target_answer => mkVote new_id u None (Some targetId) voteType
                end))
      end
  end.

(** One click on a vote arrow. *)
Record vote_click := mkClick {
  vc_user : option uuid;
  vc_targetType : targetType;
  vc_targetId : uuid;
  vc_voteType : Z;
  vc_new_id : uuid
}.

Definition handleVotes (clicks : list vote_click) (db : database) : database :=
  fold_left
    (fun d c => handleVote (vc_user c) (vc_targetType c) (vc_targetId c)
                           (vc_voteType c) (vc_new_id c) d)
    clicks db.

(** The first statement of [acceptAnswer]: [UPDATE questions SET
    accepted_answer_id = answerId, is_answered = true WHERE id = id]. *)
Definition accept_question (db : database) (id answerId : uuid) : result database :=
  update_questions db
    (fun r => uuid_eqb (q_id r) id)
    (fun r => mkQuestion (q_id r) (q_user_id r) (q_title r) (Some answerId) true).

(** Its second statement: [UPDATE answers SET is_accepted = true
    WHERE id = answerId]. *)
Definition accept_answer_row (db : database) (answerId : uuid) : database :=
  update_answers db
    (fun a => uuid_eqb (a_id a) answerId)
    (fun a => mkAnswer (a_id a) (a_question_id a) (a_user_id a) true).

(** [acceptAnswer(answerId)] on the page of question [id], with the page's
    copy [question] of that row and the logged-in [user]. *)
Definition acceptAnswer (user : option uuid) (question : option question)
    (id : uuid) (answerId : uuid) (db : database) : database :=
  match user, question with
  | Some u, Some q =>
      if negb (uuid_eqb (q_user_id q) u) then db
      else accept_answer_row (run db (accept_question db id answerId)) answerId
  | _, _ => db
  end.

End Triggers.


(** ** Invariants of the tables *)

(** [is_accepted] of an answer tells whether its question's
    [accepted_answer_id] names it, and [is_answered] of a question tells
    whether its [accepted_answer_id] is set. *)
Definition accepted_flags_consistent (db : database) : Prop :=
  (forall a q, In a (answers db) -> In q (questions db) ->
     q_id q = a_question_id a ->
     (a_is_accepted a = true <-> q_accepted_answer_id q = Some (a_id a)))
  /\ (forall q, In q (questions db) ->
     (q_is_answered q = true <-> q_accepted_answer_id q <> None)).

(** The four content tables of [d'] are those of [d]. *)
Definition same_content (d d' : database) : Prop :=
  questions d' = questions d /\ answers d' = answers d
  /\ votes d' = votes d /\ comments d' = comments d.

(** At most one vote of a user on a target. *)
Definition one_vote_per_target (db : database) : Prop :=
  forall u t targetId, (length (votes_of db u t targetId) <= 1)%nat.

(** ** The four events seen as one

    Each trigger function reads the acting user off the row it is fired for
    ([NEW.user_id]: the answerer, the voter, the commenter and, for an update
    of a question, the question's owner, who is the only user [acceptAnswer]
    lets through) and resolves the owner of the content acted upon with one
    of the queries above. *)

Inductive event :=
| answer_inserted (NEW : answer)
| question_updated (OLD NEW : question)
| vote_inserted (NEW : vote)
| comment_inserted (NEW : comment).

Definition actor (e : event) : uuid :=
  match e with
  | answer_inserted NEW => a_user_id NEW
  | question_updated _ NEW => q_user_id NEW
  | vote_inserted NEW => v_user_id NEW
  | comment_inserted NEW => c_user_id NEW
  end.

(** The owner as the trigger function of the event resolves it. *)
Definition target_owner (db : database) (e : event) : option uuid :=
  match e with
  | answer_inserted NEW => fst (select_question_owner_title db (a_question_id NEW))
  | question_updated _ NEW =>
      match q_accepted_answer_id NEW with
      | Some aid => select_answer_author db aid
      | None => None
      end
  | vote_inserted NEW => fst (fst (vote_target_lookup db NEW))
  | comment_inserted NEW => fst (fst (comment_target_lookup db NEW))
  end.

(** Whether the row that the event refers to is in its table: the question of
    an answer, the newly accepted answer of a question, the question or the
    answer of a vote or of a comment. *)
Definition referenced_exists (db : database) (e : event) : bool :=
  let has_question qid := existsb (fun q => uuid_eqb (q_id q) qid) (questions db) in
  let has_answer aid := existsb (fun a => uuid_eqb (a_id a) aid) (answers db) in
  match e with
  | answer_inserted NEW => has_question (a_question_id NEW)
  | question_updated _ NEW =>
      match q_accepted_answer_id NEW with
      | Some aid => has_answer aid
      | None => false
      end
  | vote_inserted NEW =>
      match v_question_id NEW, v_answer_id NEW with
      | Some qid, _ => has_question qid
      | None, Some aid => has_answer aid
      | None, None => false
      end
  | comment_inserted NEW =>
      match c_question_id NEW, c_answer_id NEW with
      | Some qid, _ => has_question qid
      | None, Some aid => has_answer aid
      | None, None => false
      end
  end.

(** The trigger of the event, run on [db]. *)
Definition fire (chk : notification -> bool) (db : database) (e : event)
  : result database :=
  match e with
  | answer_inserted NEW => trigger_answer_notification chk db NEW
  | question_updated OLD NEW => trigger_accept_notification chk db OLD NEW
  | vote_inserted NEW => trigger_vote_notification chk db NEW
  | comment_inserted NEW => trigger_comment_notification chk db NEW
  end.

(** The outcomes left to a trigger function called on [db] for the row
    [NEW]: it returns [NEW] having written nothing, or returns [NEW] having
    appended one row that the notifications table accepts, or raises because
    the table rejects the row it tried to append. *)
Definition returns_NEW_writing_at_most_one {R : Type}
    (chk : notification -> bool) (db : database) (NEW : R)
    (r : result (database * R)) : Prop :=
  r = Ok (db, NEW)
  \/ (exists n, chk n = true /\
        r = Ok (set_notifications (notifications db ++ [n]) db, NEW))
  \/ (exists n, chk n = false /\ r = Raise (check_violation "notifications")).

(** A notifications table without constraints. *)
Definition unconstrained (_ : notification) : bool := true.

(** A notifications table whose [type] column admits [answer], [accepted]
    and [vote] only. *)
Definition three_types_only (n : notification) : bool :=
  match n_type n with
  | Some t => String.eqb t "answer" || String.eqb t "accepted" || String.eqb t "vote"
  | None => false
  end.


(** ** A small forum

    Alice asks Q, Bob answers it with R1, Carol with R2. *)

Definition alice : uuid := "alice".
Definition bob : uuid := "bob".
Definition carol : uuid := "carol".

Definition Q : question := mkQuestion "Q" alice "How to sort a list?" None false.
Definition R1 : answer := mkAnswer "R1" "Q" bob false.
Definition R2 : answer := mkAnswer "R2" "Q" carol false.

Definition forum : database := mkDatabase [Q] [R1; R2] [] [] [].

(** Q once Alice has accepted R1. *)
Definition Q_accepted : question :=
  mkQuestion "Q" alice "How to sort a list?" (Some "R1") true.

Definition R1_accepted : answer := mkAnswer "R1" "Q" bob true.

Definition forum_accepted : database :=
  mkDatabase [Q_accepted] [R1_accepted; R2] [] [] [].

(** ** More of the question page, the comment section, the header and the
    form for asking

    The built-ins of the platform that the pages call are parameters:
    [trim] is [String.prototype.trim], [toLowerCase] is
    [String.prototype.toLowerCase], and [message] is the text that the
    database attaches to an error. *)

(** A string in a condition: the empty string is falsy. *)
Definition js_truthy (s : text) : bool :=
  match s with
  | EmptyString => false
  | String _ _ => true
  end.

(** [s || d] on strings. *)
Definition js_or (s d : text) : text := if js_truthy s then s else d.

(** [x || null] on an optional string. *)
Definition js_or_null (x : option text) : option text :=
  match x with
  | Some s => if js_truthy s then Some s else None
  | None => None
  end.

Record toast := mkToast {
  toast_title : text;
  toast_description : text;
  toast_destructive : bool
}.

(** [DELETE FROM comments]: the migrations at hand attach no trigger to it. *)
Definition delete_comments (db : database) (where_ : comment -> bool) : database :=
  set_comments (filter (fun c => negb (where_ c)) (comments db)) db.

(** Modelled from the spec: the [CREATE TABLE] of [public.answers] is
    missing; an answer is accepted only once its question names it, so a new
    row starts with [is_accepted] false. *)
Definition is_accepted_default : bool := false.



(** The state of the comment form. *)
Record comment_form := mkForm {
  newComment : text;
  isSubmitting : bool;
  showCommentForm : bool
}.

Section Pages.

Variable notifications_check : notification -> bool.
Variable trim : text -> text.
Variable message : sql_error -> text.

(** [submitAnswer] on the page of question [id]: the database, the toast and
    the editor's content afterwards.  [new_id] is the id that the database
    gives the row. *)
Definition submitAnswer (user : option uuid) (id : uuid) (answerContent : text)
    (new_id : uuid) (db : database) : database * toast * text :=
  match user with
  | None => (db, mkToast "Error" "You must be logged in to answer" true, answerContent)
  | Some u =>
      if negb (js_truthy (trim answerContent))
      then (db, mkToast "Error" "Please write an answer" true, answerContent)
      else
        match insert_answer notifications_check db
                (mkAnswer new_id id u is_accepted_default) with
        | Raise error =>
            (db, mkToast "Error" (js_or (message error) "Failed to post answer") true,
             answerContent)
        | Ok db' =>
            (db', mkToast "Success" "Answer posted successfully!" false, EmptyString)
        end
  end.

(** [handleSubmitComment] of a comment section rendered with the props
    [questionId] and [answerId]. *)
Definition handleSubmitComment (user : option uuid) (questionId answerId : option uuid)
    (form : comment_form) (new_id : uuid) (db : database)
  : database * toast * comment_form :=
  match user with
  | None => (db, mkToast "Error" "You must be logged in to comment" true, form)
  | Some u =>
      if negb (js_truthy (trim (newComment form)))
      then (db, mkToast "Error" "Please write a comment" true, form)
      else
        match insert_comment notifications_check db
                (mkComment new_id (trim (newComment form)) u
                   (js_or_null questionId) (js_or_null answerId)) with
        | Raise error =>
            (db, mkToast "Error" (js_or (message error) "Failed to add comment") true,
             mkForm (newComment form) false (showCommentForm form))
        | Ok db' =>
            (db', mkToast "Success" "Comment added successfully!" false,
             mkForm EmptyString false false)
        end
  end.

(** [handleDeleteComment(commentId)]: [DELETE FROM comments WHERE id =
    commentId AND user_id = user.id]. *)
Definition handleDeleteComment (user : option uuid) (commentId : uuid) (db : database)
  : database * option toast :=
  match user with
  | None => (db, None)
  | Some u =>
      (delete_comments db
         (fun c => uuid_eqb (c_id c) commentId && uuid_eqb (c_user_id c) u),
       Some (mkToast "Success" "Comment deleted successfully!" false))
  end.

End Pages.

(** ** Comments grouped by answer

    [fetchComments] groups the comments it fetched in an object keyed by
    [answer_id]; an object is a list of keys with their values. *)

Definition js_object (V : Type) := list (uuid * V).

Fixpoint obj_get {V : Type} (o : js_object V) (k : uuid) : option V :=
  match o with
  | [] => None
  | (k', v) :: o' => if uuid_eqb k' k then Some v else obj_get o' k
  end.

Fixpoint obj_set {V : Type} (o : js_object V) (k : uuid) (v : V) : js_object V :=
  match o with
  | [] => [(k, v)]
  | (k', v') :: o' =>
      if uuid_eqb k' k then (k, v) :: o' else (k', v') :: obj_set o' k v
  end.

(** One turn of the [forEach]: a comment with a truthy [answer_id] gets its
    key, with an empty array if the key is new, and is pushed on the array. *)
Definition group_step {A : Type} (answer_id : A -> option uuid)
    (groupedComments : js_object (list A)) (comment : A) : js_object (list A) :=
  match js_or_null (answer_id comment) with
  | None => groupedComments
  | Some k =>
      let g1 :=
        match obj_get groupedComments k with
        | Some _ => groupedComments
        | None => obj_set groupedComments k []
        end in
      match obj_get g1 k with
      | Some arr => obj_set g1 k (arr ++ [comment])%list
      | None => g1
      end
  end.

Definition groupedComments {A : Type} (answer_id : A -> option uuid)
    (transformedAComments : list A) : js_object (list A) :=
  fold_left (group_step answer_id) transformedAComments [].

(** [answerComments[answer.id] || []], the comments handed to the section of
    an answer. *)
Definition comments_of_answer {A : Type} (answerComments : js_object (list A))
    (answer_id : uuid) : list A :=
  match obj_get answerComments answer_id with
  | Some arr => arr
  | None => []
  end.

(** ** The header's notification bell

    A stored notification has, besides the columns that the triggers fill,
    the [id] and the [created_at] that the table gives it. *)

Record notification_row := mkRow {
  nr_id : uuid;
  nr_created_at : Z;
  nr_data : notification
}.

(** [ORDER BY created_at DESC], rows of equal [created_at] staying in table
    order. *)
Fixpoint insert_created_at_desc (x : notification_row) (l : list notification_row)
  : list notification_row :=
  match l with
  | [] => [x]
  | y :: l' =>
      if Z.leb (nr_created_at y) (nr_created_at x)
      then x :: y :: l'
      else y :: insert_created_at_desc x l'
  end.

Definition order_created_at_desc (l : list notification_row) : list notification_row :=
  fold_right insert_created_at_desc [] l.

(** [.eq('user_id', u).order('created_at', { ascending: false }).limit(10)]. *)
Definition select_notifications (u : uuid) (tbl : list notification_row)
  : list notification_row :=
  firstn 10
    (order_created_at_desc
       (filter (fun r => eq_filter (n_user_id (nr_data r)) u) tbl)).

Record header_state := mkHeader {
  hs_notifications : list notification_row;
  hs_unreadCount : nat
}.

Definition fetchNotifications (user : option uuid) (tbl : list notification_row)
    (st : header_state) : header_state :=
  match user with
  | None => st
  | Some u =>
      let data := select_notifications u tbl in
      mkHeader data (length (filter (fun n => negb (n_read (nr_data n))) data))
  end.

(** [SET read = true] on one row. *)
Definition set_read (r : notification_row) : notification_row :=
  let n := nr_data r in
  mkRow (nr_id r) (nr_created_at r)
    (mkNotification (n_user_id n) (n_type n) (n_title n) (n_message n)
       (n_question_id n) (n_answer_id n) true).

(** [markAsRead(notificationId)]: the update, then the fetch. *)
Definition markAsRead (user : option uuid) (notificationId : uuid)
    (tbl : list notification_row) (st : header_state)
  : list notification_row * header_state :=
  let tbl' := map (fun r => if uuid_eqb (nr_id r) notificationId then set_read r else r) tbl in
  (tbl', fetchNotifications user tbl' st).

(** [markAllAsRead()]: [.eq('user_id', user.id).eq('read', false)]. *)
Definition markAllAsRead (user : option uuid)
    (tbl : list notification_row) (st : header_state)
  : list notification_row * header_state :=
  match user with
  | None => (tbl, st)
  | Some u =>
      let tbl' :=
        map (fun r => if eq_filter (n_user_id (nr_data r)) u
                         && Bool.eqb (n_read (nr_data r)) false
                      then set_read r else r) tbl in
      (tbl', fetchNotifications user tbl' st)
  end.

(** ** The tags of the form for asking *)

Record tag := mkTag {
  t_id : uuid;
  t_name : text;
  t_color : text
}.

Record tag_state := mkTags {
  selectedTags : list tag;
  availableTags : list tag;
  tagInput : text
}.

Section AskQuestion.

Variable toLowerCase : text -> text.
Variable trim : text -> text.

(** The [CREATE TABLE] of [public.tags] is not part of the sources at hand:
    [tags_check tbl r] tells whether the table holding [tbl] accepts the row
    [r], and [color_default] is what it gives a row inserted without a
    color. *)
Variable tags_check : list tag -> tag -> bool.
Variable color_default : text.

(** [.from('tags').insert([{ name }]).select().single()]: the table and the
    row as inserted. *)
Definition insert_tag (tbl : list tag) (name : text) (new_id : uuid)
  : result (list tag * tag) :=
  let row := mkTag new_id name color_default in
  if tags_check tbl row then Ok ((tbl ++ [row])%list, row)
  else Raise (check_violation "tags").

Definition same_name (tagName : text) (t : tag) : bool :=
  String.eqb (toLowerCase (t_name t)) (toLowerCase tagName).

(** [addTag(tagName)]: the form's state, the tags table and the toast, if
    any. *)
Definition addTag (st : tag_state) (tbl : list tag) (tagName : text) (new_id : uuid)
  : tag_state * list tag * option toast :=
  if existsb (same_name tagName) (selectedTags st)
  then (mkTags (selectedTags st) (availableTags st) EmptyString, tbl, None)
  else
    match find (same_name tagName) (availableTags st) with
    | Some existingTag =>
        (mkTags (selectedTags st ++ [existingTag])%list (availableTags st) EmptyString,
         tbl, None)
    | None =>
        match insert_tag tbl tagName new_id with
        | Raise _ => (st, tbl, Some (mkToast "Error" "Failed to create tag" true))
        | Ok (tbl', data) =>
            (mkTags (selectedTags st ++ [data])%list (availableTags st ++ [data])%list
               EmptyString,
             tbl', None)
        end
    end.

(** [handleTagInput] on a key press in the tag field. *)
Definition handleTagInput (key : text) (st : tag_state) (tbl : list tag)
    (new_id : uuid) : tag_state * list tag * option toast :=
  if String.eqb key "Enter" && js_truthy (trim (tagInput st))
  then addTag st tbl (trim (tagInput st)) new_id
  else (st, tbl, None).

Definition removeTag (st : tag_state) (tagToRemove : tag) : tag_state :=
  mkTags (filter (fun t => negb (uuid_eqb (t_id t) (t_id tagToRemove))) (selectedTags st))
         (availableTags st) (tagInput st).

(** No two selected tags have the same name up to case. *)
Definition distinct_names (st : tag_state) : Prop :=
  NoDup (map (fun t => toLowerCase (t_name t)) (selectedTags st)).

End AskQuestion.

(** ** What a trigger may write

    A new row of the event [e]: addressed to a user other than the actor,
    unread, of the event's type, with a title and a message, and pointing at
    a question or at an answer. *)
Definition event_types (e : event) : list text :=
  match e with
  | answer_inserted _ => ["answer"]
  | question_updated _ _ => ["accepted"]
  | vote_inserted _ => ["vote"]
  | comment_inserted _ => ["comment_question"; "comment_answer"]
  end.

Definition well_formed_for (e : event) (n : notification) : Prop :=
  (exists o, n_user_id n = Some o /\ o <> actor e)
  /\ (exists ty, n_type n = Some ty /\ In ty (event_types e))
  /\ n_title n <> None
  /\ n_message n <> None
  /\ (n_question_id n <> None \/ n_answer_id n <> None)
  /\ n_read n = false.

(** * Properties *)

(** ** SQL conditions *)

Lemma uuid_eqb_eq (x y : uuid) : uuid_eqb x y = true <-> x = y.
Proof. apply String.eqb_eq. Qed.

Lemma uuid_eqb_neq (x y : uuid) : uuid_eqb x y = false <-> x <> y.
Proof. apply String.eqb_neq. Qed.

Lemma uuid_eqb_refl (x : uuid) : uuid_eqb x x = true.
Proof. apply String.eqb_refl. Qed.

(** [o != u] is TRUE exactly for a known owner other than [u]. *)
Lemma sql_ne_true (o : option uuid) (u : uuid) :
  sql_true (sql_ne o (Some u)) = true <-> exists x, o = Some x /\ x <> u.
Proof.
  destruct o as [x|]; simpl.
  - destruct (uuid_eqb x u) eqn:E; simpl; split.
    + discriminate.
    + intros (y & Hy & Hne). inversion Hy; subst y.
      apply uuid_eqb_eq in E. contradiction.
    + intros _. exists x. split; [reflexivity|]. now apply uuid_eqb_neq.
    + reflexivity.
  - split; [discriminate|]. intros (x & Hx & _). discriminate.
Qed.

(** The explicit NULL test of the vote and comment functions adds nothing to
    the comparison it guards. *)
Lemma sql_guard_ne (o : option uuid) (u : uuid) :
  sql_true (sql_and (is_not_null o) (sql_ne o (Some u))) = sql_true (sql_ne o (Some u)).
Proof. destruct o as [x|]; simpl; [destruct (uuid_eqb x u)|]; reflexivity. Qed.

Lemma sql_ne_self (u : uuid) : sql_true (sql_ne (Some u) (Some u)) = false.
Proof. simpl. now rewrite uuid_eqb_refl. Qed.


(** ** What a trigger does, by the owner it resolves *)

Ltac unfold_triggers :=
  unfold fire, trigger_answer_notification, trigger_accept_notification,
    trigger_vote_notification, trigger_comment_notification,
    create_answer_notification, create_accept_notification,
    create_vote_notification, create_comment_notification.

(** Case analysis on the outermost condition of the goal. *)
Ltac case_if :=
  match goal with
  | |- context [if ?c then _ else _] => destruct c eqn:?
  end.

(** When the owner test of the event's function is not TRUE, the trigger
    leaves the database as it found it. *)
Lemma fire_suppressed chk db e :
  sql_true (sql_ne (target_owner db e) (Some (actor e))) = false ->
  fire chk db e = Ok db.
Proof.
  destruct e as [NEW | OLD NEW | NEW | NEW]; unfold_triggers; simpl; intros H.
  - destruct (select_question_owner_title db (a_question_id NEW)) as [o t].
    simpl in H. rewrite H. reflexivity.
  - case_if; [|reflexivity].
    rewrite H. reflexivity.
  - case_if; [|reflexivity].
    destruct (vote_target_lookup db NEW) as [[o t] vt].
    simpl in H. rewrite sql_guard_ne, H. reflexivity.
  - destruct (comment_target_lookup db NEW) as [[o t] ty].
    simpl in H. rewrite sql_guard_ne, H. reflexivity.
Qed.

(** C1. Whatever the event (an answer inserted, a question updated, a vote
    inserted, a comment inserted): when the acting user is the owner that the
    event's trigger function resolves, the trigger succeeds and leaves the
    database unchanged, so no notification row is created. *)
Theorem self_action_creates_no_notification chk db e :
  target_owner db e = Some (actor e) ->
  fire chk db e = Ok db.
Proof.
  intros H. apply fire_suppressed. rewrite H. apply sql_ne_self.
Qed.

(** C1 on the forum: Bob upvotes his own answer R1. *)
Lemma self_action_creates_no_notification_witness :
  fire unconstrained forum (vote_inserted (mkVote "V1" bob None (Some "R1") 1)) = Ok forum.
Proof.
  apply (self_action_creates_no_notification unconstrained forum
           (vote_inserted (mkVote "V1" bob None (Some "R1") 1))).
  reflexivity.
Defined.

(** ** Unresolved owners *)

Lemma find_existsb_false {A : Type} (p : A -> bool) (l : list A) :
  existsb p l = false -> find p l = None.
Proof.
  induction l as [|x l IH]; simpl; [reflexivity|].
  destruct (p x); simpl; [discriminate|exact IH].
Qed.

Lemma select_question_missing db qid :
  existsb (fun q => uuid_eqb (q_id q) qid) (questions db) = false ->
  select_question_owner_title db qid = (None, None).
Proof.
  intros H. unfold select_question_owner_title.
  now rewrite (find_existsb_false _ _ H).
Qed.

Lemma select_answer_missing db aid :
  existsb (fun a => uuid_eqb (a_id a) aid) (answers db) = false ->
  select_answer_author db aid = None.
Proof.
  intros H. unfold select_answer_author.
  now rewrite (find_existsb_false _ _ H).
Qed.

Lemma join_answer_missing db aid :
  existsb (fun a => uuid_eqb (a_id a) aid) (answers db) = false ->
  select_answer_owner_question_title db aid = (None, None).
Proof.
  intros H. unfold select_answer_owner_question_title, join_answer_question.
  induction (answers db) as [|a l IH]; simpl in *; [reflexivity|].
  destruct (uuid_eqb (a_id a) aid); simpl in *; [discriminate|].
  apply IH, H.
Qed.

Lemma referenced_missing_unresolved db e :
  referenced_exists db e = false -> target_owner db e = None.
Proof.
  destruct e as [NEW | OLD NEW | NEW | NEW]; simpl; intros H.
  - now rewrite select_question_missing.
  - destruct (q_accepted_answer_id NEW) as [aid|]; [|reflexivity].
    now apply select_answer_missing.
  - unfold vote_target_lookup.
    destruct (v_question_id NEW) as [qid|]; [|destruct (v_answer_id NEW) as [aid|]].
    + now rewrite select_question_missing.
    + now rewrite join_answer_missing.
    + reflexivity.
  - unfold comment_target_lookup.
    destruct (c_question_id NEW) as [qid|]; [|destruct (c_answer_id NEW) as [aid|]].
    + now rewrite select_question_missing.
    + now rewrite join_answer_missing.
    + reflexivity.
Qed.

(** C5. Whatever the event, when the row it refers to (the question of the
    answer, the newly accepted answer, the voted or commented question or
    answer) is not in its table, the owner resolves to NULL and the trigger
    succeeds with the database unchanged: no notification and no error, with
    or without an explicit NULL test in the function. *)
Theorem missing_parent_is_silent chk db e :
  referenced_exists db e = false ->
  target_owner db e = None /\ fire chk db e = Ok db.
Proof.
  intros H. apply referenced_missing_unresolved in H. split; [exact H|].
  apply fire_suppressed. rewrite H. reflexivity.
Qed.

(** C5 on the forum: an answer to a question that is not there. *)
Lemma missing_parent_is_silent_witness :
  target_owner forum (answer_inserted (mkAnswer "R3" "gone" bob false)) = None
  /\ fire unconstrained forum (answer_inserted (mkAnswer "R3" "gone" bob false))
     = Ok forum.
Proof.
  apply (missing_parent_is_silent unconstrained forum
           (answer_inserted (mkAnswer "R3" "gone" bob false))).
  reflexivity.
Defined.

(** ** The frame of the trigger functions *)

Lemma insert_notification_outcome chk db u ty ti m qid aid :
  let n := mkNotification u ty ti m qid aid false in
  (chk n = true /\
   insert_notification chk db u ty ti m qid aid
   = Ok (set_notifications (notifications db ++ [n]) db))
  \/ (chk n = false /\
      insert_notification chk db u ty ti m qid aid
      = Raise (check_violation "notifications")).
Proof.
  intros n. unfold insert_notification, read_default. fold n.
  destruct (chk n); [left|right]; split; reflexivity.
Qed.

Lemma insert_then_return {R : Type} chk db (NEW : R) u ty ti m qid aid :
  returns_NEW_writing_at_most_one chk db NEW
    (db1 <- insert_notification chk db u ty ti m qid aid ;; Ok (db1, NEW)).
Proof.
  destruct (insert_notification_outcome chk db u ty ti m qid aid) as [[Hc ->] | [Hc ->]].
  - right; left. eexists. split; [exact Hc|reflexivity].
  - right; right. eexists. split; [exact Hc|reflexivity].
Qed.

(** Case analysis on the [INSERT] pending in hypothesis [H]. *)
Ltac insert_outcome H :=
  match type of H with
  | context [insert_notification ?c ?d ?u ?ty ?ti ?m ?q ?a] =>
      let E := fresh "E" in
      destruct (insert_notification_outcome c d u ty ti m q a) as [[_ E] | [_ E]];
      rewrite E in H; simpl bind in H
  end.

Lemma skip_then_return {R : Type} chk db (NEW : R) :
  returns_NEW_writing_at_most_one chk db NEW (db1 <- Ok db ;; Ok (db1, NEW)).
Proof. left. reflexivity. Qed.

Lemma create_answer_notification_frame chk db NEW :
  returns_NEW_writing_at_most_one chk db NEW (create_answer_notification chk db NEW).
Proof.
  unfold_triggers.
  destruct (select_question_owner_title db (a_question_id NEW)) as [o t].
  case_if; [apply insert_then_return | apply skip_then_return].
Qed.

Lemma create_accept_notification_frame chk db OLD NEW :
  returns_NEW_writing_at_most_one chk db NEW
    (create_accept_notification chk db OLD NEW).
Proof.
  unfold_triggers.
  case_if; [|apply skip_then_return].
  case_if; [apply insert_then_return | apply skip_then_return].
Qed.

Lemma create_vote_notification_frame chk db NEW :
  returns_NEW_writing_at_most_one chk db NEW (create_vote_notification chk db NEW).
Proof.
  unfold_triggers.
  case_if; [|apply skip_then_return].
  destruct (vote_target_lookup db NEW) as [[o t] vt].
  case_if; [apply insert_then_return | apply skip_then_return].
Qed.

Lemma create_comment_notification_frame chk db NEW :
  returns_NEW_writing_at_most_one chk db NEW (create_comment_notification chk db NEW).
Proof.
  unfold_triggers.
  destruct (comment_target_lookup db NEW) as [[o t] ty].
  case_if; [apply insert_then_return | apply skip_then_return].
Qed.

(** C10. Each of the four trigger functions, when it returns, returns the row
    it was fired for as it received it, with every table but notifications
    untouched and notifications either untouched or longer by one row; and
    when it does not return, it has written nothing. *)
Theorem trigger_functions_frame chk db :
  (forall NEW, returns_NEW_writing_at_most_one chk db NEW
                 (create_answer_notification chk db NEW))
  /\ (forall OLD NEW, returns_NEW_writing_at_most_one chk db NEW
                        (create_accept_notification chk db OLD NEW))
  /\ (forall NEW, returns_NEW_writing_at_most_one chk db NEW
                    (create_vote_notification chk db NEW))
  /\ (forall NEW, returns_NEW_writing_at_most_one chk db NEW
                    (create_comment_notification chk db NEW)).
Proof.
  repeat split; intros.
  - apply create_answer_notification_frame.
  - apply create_accept_notification_frame.
  - apply create_vote_notification_frame.
  - apply create_comment_notification_frame.
Qed.

(** ** Notifications written *)

Lemma insert_notification_accepted chk db u ty ti m qid aid :
  chk (mkNotification u ty ti m qid aid false) = true ->
  insert_notification chk db u ty ti m qid aid
  = Ok (set_notifications
          (notifications db ++ [mkNotification u ty ti m qid aid false]) db).
Proof. intros H. unfold insert_notification, read_default. now rewrite H. Qed.

Lemma sql_ne_other (o u : uuid) : o <> u -> sql_true (sql_ne (Some o) (Some u)) = true.
Proof. intros H. apply sql_ne_true. now exists o. Qed.

(** C3. An answer is inserted whose author is not the owner of its question
    (the table of notifications accepting the row): the function returns the
    answer, and the insert leaves the database with the answer appended and
    exactly one more notification, of type [answer], addressed to the
    question's owner, unread, carrying the question's id and the answer's. *)
Theorem answer_insert_notifies_question_owner chk db NEW owner title :
  select_question_owner_title db (a_question_id NEW) = (Some owner, Some title) ->
  owner <> a_user_id NEW ->
  let n := mkNotification (Some owner) (Some "answer") (Some "New Answer")
             (Some ((("Someone answered your question: " ++ dquote) ++ title) ++ dquote))
             (Some (a_question_id NEW)) (Some (a_id NEW)) false in
  chk n = true ->
  create_answer_notification chk db NEW
  = Ok (set_notifications (notifications db ++ [n]) db, NEW)
  /\ insert_answer chk db NEW
     = Ok (mkDatabase (questions db) (answers db ++ [NEW]) (votes db) (comments db)
                      (notifications db ++ [n])).
Proof.
  intros Hsel Hne n Hchk. split.
  - unfold create_answer_notification. rewrite Hsel.
    rewrite (sql_ne_other _ _ Hne). simpl sql_concat.
    rewrite insert_notification_accepted by exact Hchk. reflexivity.
  - unfold insert_answer, trigger_answer_notification, create_answer_notification.
    unfold select_question_owner_title in *. simpl questions. rewrite Hsel.
    rewrite (sql_ne_other _ _ Hne). simpl sql_concat.
    rewrite insert_notification_accepted by exact Hchk. reflexivity.
Qed.

(** C3 on the forum before any answer: Bob posts R1 on Alice's Q. *)
Lemma answer_insert_notifies_question_owner_witness :
  insert_answer unconstrained (mkDatabase [Q] [] [] [] []) R1
  = Ok (mkDatabase [Q] [R1] [] []
          [mkNotification (Some alice) (Some "answer") (Some "New Answer")
             (Some ((("Someone answered your question: " ++ dquote)
                      ++ "How to sort a list?") ++ dquote))
             (Some "Q") (Some "R1") false]).
Proof.
  apply (answer_insert_notifies_question_owner unconstrained
           (mkDatabase [Q] [] [] [] []) R1 alice "How to sort a list?").
  - reflexivity.
  - discriminate.
  - reflexivity.
Defined.

(** ** Accepting an answer *)

Lemma frame_same_content {R : Type} chk db (NEW : R) r d' row :
  returns_NEW_writing_at_most_one chk db NEW r ->
  r = Ok (d', row) ->
  same_content db d' /\ row = NEW.
Proof.
  intros [H | [(n & _ & H) | (n & _ & H)]] E; rewrite H in E;
    inversion E; subst; repeat split.
Qed.

Lemma trigger_accept_same_content chk db OLD NEW d' :
  trigger_accept_notification chk db OLD NEW = Ok d' -> same_content db d'.
Proof.
  unfold trigger_accept_notification. intros H.
  destruct (create_accept_notification chk db OLD NEW) as [[d r]|e] eqn:E;
    simpl in H; [|discriminate].
  inversion H; subst d'.
  now destruct (frame_same_content _ _ _ _ _ _
                  (create_accept_notification_frame chk db OLD NEW) E).
Qed.

(** Without a change of [accepted_answer_id] the function writes nothing. *)
Lemma create_accept_notification_same chk db OLD NEW :
  q_accepted_answer_id OLD = q_accepted_answer_id NEW ->
  create_accept_notification chk db OLD NEW = Ok (db, NEW).
Proof.
  intros H. unfold create_accept_notification. rewrite H.
  destruct (q_accepted_answer_id NEW) as [aid|]; simpl.
  - rewrite uuid_eqb_refl. reflexivity.
  - reflexivity.
Qed.

(** The condition of the outer [IF], read back. *)
Lemma accept_condition OLD NEW :
  sql_true
    (sql_and (is_not_null (q_accepted_answer_id NEW))
       (sql_or (is_null (q_accepted_answer_id OLD))
          (sql_ne (q_accepted_answer_id OLD) (q_accepted_answer_id NEW)))) = true
  <-> q_accepted_answer_id NEW <> None
      /\ (q_accepted_answer_id OLD = None
          \/ q_accepted_answer_id OLD <> q_accepted_answer_id NEW).
Proof.
  destruct (q_accepted_answer_id NEW) as [x|], (q_accepted_answer_id OLD) as [y|];
    simpl; try (destruct (uuid_eqb y x) eqn:E; simpl).
  - apply uuid_eqb_eq in E. subst. split; [discriminate|].
    intros [_ [H|H]]; [discriminate|congruence].
  - apply uuid_eqb_neq in E. split; [|reflexivity].
    intros _. split; [discriminate|]. right. congruence.
  - split; [|reflexivity]. intros _. split; [discriminate|]. now left.
  - split; [discriminate|]. intros [H _]. congruence.
  - split; [discriminate|]. intros [H _]. congruence.
Qed.

Lemma same_content_trans d0 d1 d2 :
  same_content d0 d1 -> same_content d1 d2 -> same_content d0 d2.
Proof.
  unfold same_content. intros (A & B & C & D) (A' & B' & C' & D').
  repeat split; congruence.
Qed.

(** The triggers of an [UPDATE questions] leave the content tables alone, and
    the statement succeeds only if it started from a success. *)
Lemma update_triggers_same_content chk set_ l :
  forall acc d1,
    fold_left
      (fun acc OLD => db' <- acc ;; trigger_accept_notification chk db' OLD (set_ OLD))
      l acc = Ok d1 ->
    exists d0, acc = Ok d0 /\ same_content d0 d1.
Proof.
  induction l as [|x l IH]; simpl; intros acc d1 H.
  - exists d1. split; [exact H|]. repeat split.
  - apply IH in H. destruct H as (d & Hd & Hs).
    destruct acc as [d0|e]; simpl in Hd; [|discriminate].
    exists d0. split; [reflexivity|].
    eapply same_content_trans; [|exact Hs].
    eapply trigger_accept_same_content. exact Hd.
Qed.

(** Rows whose [accepted_answer_id] the update does not change fire the
    trigger for nothing. *)
Lemma update_triggers_unchanged chk set_ l :
  (forall OLD, In OLD l -> q_accepted_answer_id OLD = q_accepted_answer_id (set_ OLD)) ->
  forall d,
    fold_left
      (fun acc OLD => db' <- acc ;; trigger_accept_notification chk db' OLD (set_ OLD))
      l (Ok d) = Ok d.
Proof.
  induction l as [|x l IH]; simpl; intros H d; [reflexivity|].
  unfold trigger_accept_notification at 2.
  rewrite create_accept_notification_same by (apply H; now left).
  simpl. apply IH. intros OLD HIn. apply H. now right.
Qed.

Lemma set_questions_same db : set_questions (questions db) db = db.
Proof. destruct db; reflexivity. Qed.

(** An update whose assignment is idempotent and keeps the rows it selects
    selected changes nothing when it is run again. *)
Lemma update_questions_again chk db where_ set_ db1 :
  (forall q, where_ (set_ q) = where_ q) ->
  (forall q, set_ (set_ q) = set_ q) ->
  update_questions chk db where_ set_ = Ok db1 ->
  update_questions chk db1 where_ set_ = Ok db1.
Proof.
  intros Hw Hs H. unfold update_questions in *.
  apply update_triggers_same_content in H. destruct H as (d0 & E & (Hq & _)).
  inversion E; subst d0; clear E. simpl in Hq.
  assert (Hmap : map (fun q => if where_ q then set_ q else q) (questions db1)
                 = questions db1).
  { rewrite Hq, map_map. apply map_ext. intros q.
    destruct (where_ q) eqn:Eq.
    - now rewrite Hw, Eq, Hs.
    - now rewrite Eq. }
  rewrite Hmap, set_questions_same.
  apply update_triggers_unchanged.
  intros OLD HIn. apply filter_In in HIn. destruct HIn as [HIn HOLD].
  rewrite Hq in HIn. apply in_map_iff in HIn. destruct HIn as (q & Hq' & _).
  subst OLD. destruct (where_ q) eqn:Eq.
  - now rewrite Hs.
  - rewrite Eq in HOLD. discriminate.
Qed.

(** Running the first statement of [acceptAnswer] again changes nothing. *)
Lemma accept_question_again chk db id answerId db1 :
  accept_question chk db id answerId = Ok db1 ->
  accept_question chk db1 id answerId = Ok db1.
Proof.
  unfold accept_question. apply update_questions_again; reflexivity.
Qed.

(** C2. On an update of a question from [OLD] to [NEW]:
    if the function writes anything, then [accepted_answer_id] is set in [NEW]
    and was NULL or different in [OLD], and what it writes is exactly one
    notification of type [accepted] addressed to the author of the newly
    accepted answer; conversely, under that condition, with an author other
    than the question's owner and the table accepting the row, it writes that
    one notification; when [accepted_answer_id] is the same before and after it
    writes nothing.  The same holds of the statement: an [UPDATE] of questions
    that selects the row [OLD] alone and rewrites it into [NEW] ends with the
    row rewritten and, under the condition, exactly that one notification
    appended, with no notification otherwise; running the accepting update a
    second time changes nothing and adds no row. *)
Theorem accept_notification_on_transition chk db OLD NEW :
  let notice aid author :=
    mkNotification (Some author) (Some "accepted") (Some "Answer Accepted")
      (Some ((("Your answer was accepted for: " ++ dquote) ++ q_title NEW) ++ dquote))
      (Some (q_id NEW)) (Some aid) false in
  (forall db' row,
      create_accept_notification chk db OLD NEW = Ok (db', row) ->
      db' <> db ->
      exists aid author,
        q_accepted_answer_id NEW = Some aid
        /\ q_accepted_answer_id OLD <> Some aid
        /\ select_answer_author db aid = Some author
        /\ author <> q_user_id NEW
        /\ db' = set_notifications (notifications db ++ [notice aid author]) db)
  /\ (forall aid author,
      q_accepted_answer_id NEW = Some aid ->
      q_accepted_answer_id OLD <> Some aid ->
      select_answer_author db aid = Some author ->
      author <> q_user_id NEW ->
      chk (notice aid author) = true ->
      create_accept_notification chk db OLD NEW
      = Ok (set_notifications (notifications db ++ [notice aid author]) db, NEW))
  /\ (q_accepted_answer_id OLD = q_accepted_answer_id NEW ->
      create_accept_notification chk db OLD NEW = Ok (db, NEW))
  /\ (forall id answerId db1,
      accept_question chk db id answerId = Ok db1 ->
      accept_question chk db1 id answerId = Ok db1)
  /\ (forall (where_ : question -> bool) (set_ : question -> question),
      filter where_ (questions db) = [OLD] ->
      set_ OLD = NEW ->
      let written :=
        set_questions
          (map (fun q => if where_ q then set_ q else q) (questions db)) db in
      (forall aid author,
          q_accepted_answer_id NEW = Some aid ->
          q_accepted_answer_id OLD <> Some aid ->
          select_answer_author db aid = Some author ->
          author <> q_user_id NEW ->
          chk (notice aid author) = true ->
          update_questions chk db where_ set_
          = Ok (set_notifications (notifications db ++ [notice aid author]) written))
      /\ (forall db',
          update_questions chk db where_ set_ = Ok db' ->
          db' <> written ->
          exists aid author,
            q_accepted_answer_id NEW = Some aid
            /\ q_accepted_answer_id OLD <> Some aid
            /\ select_answer_author db aid = Some author
            /\ author <> q_user_id NEW
            /\ db' = set_notifications (notifications db ++ [notice aid author])
                       written)
      /\ (q_accepted_answer_id OLD = q_accepted_answer_id NEW ->
          update_questions chk db where_ set_ = Ok written)).
Proof.
  intros notice.
  assert (Only : forall d db' row,
             create_accept_notification chk d OLD NEW = Ok (db', row) ->
             db' <> d ->
             exists aid author,
               q_accepted_answer_id NEW = Some aid
               /\ q_accepted_answer_id OLD <> Some aid
               /\ select_answer_author d aid = Some author
               /\ author <> q_user_id NEW
               /\ db' = set_notifications (notifications d ++ [notice aid author]) d).
  { intros d db' row H Hne. unfold create_accept_notification in H.
    destruct (sql_true (sql_and _ _)) eqn:C;
      [|simpl in H; inversion H; subst; contradiction].
    apply accept_condition in C. destruct C as [C1 C2].
    destruct (q_accepted_answer_id NEW) as [aid|] eqn:HNEW; [|contradiction].
    destruct (sql_true (sql_ne (select_answer_author d aid) _)) eqn:S;
      [|simpl in H; inversion H; subst; contradiction].
    apply sql_ne_true in S. destruct S as (author & Hsel & Hau).
    exists aid, author. rewrite Hsel in H.
    insert_outcome H; [|discriminate].
    inversion H; subst. repeat split; try assumption.
    destruct C2 as [C2|C2]; congruence. }
  assert (Once : forall d aid author,
             q_accepted_answer_id NEW = Some aid ->
             q_accepted_answer_id OLD <> Some aid ->
             select_answer_author d aid = Some author ->
             author <> q_user_id NEW ->
             chk (notice aid author) = true ->
             create_accept_notification chk d OLD NEW
             = Ok (set_notifications (notifications d ++ [notice aid author]) d, NEW)).
  { intros d aid author HNEW HOLD Hsel Hne Hchk.
    unfold create_accept_notification.
    assert (C : sql_true
                  (sql_and (is_not_null (q_accepted_answer_id NEW))
                     (sql_or (is_null (q_accepted_answer_id OLD))
                        (sql_ne (q_accepted_answer_id OLD)
                           (q_accepted_answer_id NEW)))) = true).
    { apply accept_condition. rewrite HNEW. split; [discriminate|].
      destruct (q_accepted_answer_id OLD); [right; congruence | now left]. }
    rewrite C, HNEW, Hsel, (sql_ne_other _ _ Hne). simpl sql_concat.
    rewrite insert_notification_accepted by exact Hchk. reflexivity. }
  split; [apply Only|]. split; [apply Once|].
  split; [apply create_accept_notification_same|].
  split; [intros id answerId db1; apply accept_question_again|].
  intros where_ set_ Hsel1 Hset written.
  assert (Stmt : update_questions chk db where_ set_
                 = (r <- create_accept_notification chk written OLD NEW ;; Ok (fst r))).
  { unfold update_questions. rewrite Hsel1. simpl. rewrite Hset. reflexivity. }
  rewrite Stmt. split; [|split].
  - intros aid author HNEW HOLD Hsel Hne Hchk.
    rewrite (Once written aid author HNEW HOLD Hsel Hne Hchk). reflexivity.
  - intros db' H Hne.
    destruct (create_accept_notification chk written OLD NEW) as [[d row]|e] eqn:E;
      simpl in H; [|discriminate].
    inversion H; subst d.
    destruct (Only written db' row E Hne) as (aid & author & A & B & C & D & F).
    exists aid, author. repeat split; assumption.
  - intros Hsame. rewrite (create_accept_notification_same chk written OLD NEW Hsame).
    reflexivity.
Qed.

(** C2 on the forum: Alice accepts Bob's R1, then does it again. *)
Lemma accept_notification_on_transition_witness :
  create_accept_notification unconstrained forum Q Q_accepted
  = Ok (set_notifications
          [mkNotification (Some bob) (Some "accepted") (Some "Answer Accepted")
             (Some ((("Your answer was accepted for: " ++ dquote)
                      ++ "How to sort a list?") ++ dquote))
             (Some "Q") (Some "R1") false] forum, Q_accepted)
  /\ create_accept_notification unconstrained forum Q_accepted Q_accepted
     = Ok (forum, Q_accepted)
  /\ accept_question unconstrained forum "Q" "R1"
     = Ok (mkDatabase [Q_accepted] [R1; R2] [] []
             [mkNotification (Some bob) (Some "accepted") (Some "Answer Accepted")
                (Some ((("Your answer was accepted for: " ++ dquote)
                         ++ "How to sort a list?") ++ dquote))
                (Some "Q") (Some "R1") false])
  /\ accept_question unconstrained forum_accepted "Q" "R1" = Ok forum_accepted.
Proof.
  split; [|split; [|split]].
  - apply (accept_notification_on_transition unconstrained forum Q Q_accepted).
    + reflexivity.
    + discriminate.
    + reflexivity.
    + discriminate.
    + reflexivity.
  - apply (accept_notification_on_transition unconstrained forum Q_accepted Q_accepted).
    reflexivity.
  - apply (proj1
             (proj2 (proj2 (proj2 (proj2
                (accept_notification_on_transition unconstrained forum Q Q_accepted))))
                (fun r => uuid_eqb (q_id r) "Q")
                (fun r => mkQuestion (q_id r) (q_user_id r) (q_title r) (Some "R1") true)
                eq_refl eq_refl)
             "R1" bob).
    + reflexivity.
    + discriminate.
    + reflexivity.
    + discriminate.
    + reflexivity.
  - apply (proj2 (proj2
             (proj2 (proj2 (proj2 (proj2
                (accept_notification_on_transition unconstrained forum_accepted
                   Q_accepted Q_accepted))))
                (fun r => uuid_eqb (q_id r) "Q")
                (fun r => mkQuestion (q_id r) (q_user_id r) (q_title r) (Some "R1") true)
                eq_refl eq_refl))).
    reflexivity.
Defined.

(** ** Votes *)

Lemma sql_case_not_null {A : Type} (x : option A) :
  sql_case (is_not_null x) x None = x.
Proof. destruct x; reflexivity. Qed.

(** C4. On the insert of a vote:
    a downvote writes no notification, whoever votes on whatever, and the
    insert leaves the vote stored and nothing else changed;
    if the function writes anything, the vote is an upvote, the owner of the
    voted content resolves and is not the voter, and what is written is
    exactly one notification of type [vote] addressed to that owner;
    conversely an upvote by someone other than the resolved owner (the table
    accepting the row) writes that one notification.  The same holds of the
    statement: [INSERT INTO votes] ends with the vote stored and, for such an
    upvote, exactly that one notification appended; if it ends with anything
    else than the vote alone, the vote was an upvote on content whose owner
    resolves and is not the voter, and the difference is that one
    notification. *)
Theorem vote_notification_only_for_upvotes chk db NEW :
  let notice owner (title target : option text) :=
    mkNotification (Some owner) (Some "vote") (Some "Upvoted")
      (sql_concat
         (sql_concat
            (sql_concat (sql_concat (Some "Someone upvoted your ") target)
                        (Some (" on: " ++ dquote)))
            title)
         (Some dquote))
      (v_question_id NEW) (v_answer_id NEW) false in
  let written := set_votes (votes db ++ [NEW]) db in
  (v_vote_type NEW = (-1)%Z ->
     create_vote_notification chk db NEW = Ok (db, NEW)
     /\ insert_vote chk db NEW = Ok written)
  /\ (forall db' row,
      create_vote_notification chk db NEW = Ok (db', row) ->
      db' <> db ->
      exists owner title target,
        v_vote_type NEW = 1%Z
        /\ vote_target_lookup db NEW = (Some owner, title, target)
        /\ owner <> v_user_id NEW
        /\ db' = set_notifications
                   (notifications db ++ [notice owner title target]) db)
  /\ (forall owner title target,
      v_vote_type NEW = 1%Z ->
      vote_target_lookup db NEW = (Some owner, title, target) ->
      owner <> v_user_id NEW ->
      chk (notice owner title target) = true ->
      create_vote_notification chk db NEW
      = Ok (set_notifications
              (notifications db ++ [notice owner title target]) db, NEW))
  /\ (forall owner title target,
      v_vote_type NEW = 1%Z ->
      vote_target_lookup db NEW = (Some owner, title, target) ->
      owner <> v_user_id NEW ->
      chk (notice owner title target) = true ->
      insert_vote chk db NEW
      = Ok (mkDatabase (questions db) (answers db) (votes db ++ [NEW]) (comments db)
              (notifications db ++ [notice owner title target])))
  /\ (forall db',
      insert_vote chk db NEW = Ok db' ->
      db' <> written ->
      exists owner title target,
        v_vote_type NEW = 1%Z
        /\ vote_target_lookup db NEW = (Some owner, title, target)
        /\ owner <> v_user_id NEW
        /\ db' = mkDatabase (questions db) (answers db) (votes db ++ [NEW])
                   (comments db)
                   (notifications db ++ [notice owner title target])).
Proof.
  intros notice written.
  assert (Only : forall d db' row,
             create_vote_notification chk d NEW = Ok (db', row) ->
             db' <> d ->
             exists owner title target,
               v_vote_type NEW = 1%Z
               /\ vote_target_lookup d NEW = (Some owner, title, target)
               /\ owner <> v_user_id NEW
               /\ db' = set_notifications
                          (notifications d ++ [notice owner title target]) d).
  { intros d db' row H Hne. unfold create_vote_notification in H.
    destruct (sql_true (sql_eq_int _ _)) eqn:V;
      [|simpl in H; inversion H; subst; contradiction].
    simpl in V. destruct (Z.eqb_spec (v_vote_type NEW) 1) as [V1|]; [|discriminate].
    destruct (vote_target_lookup d NEW) as [[o title] target] eqn:L.
    rewrite sql_guard_ne in H.
    destruct (sql_true (sql_ne o _)) eqn:S;
      [|simpl in H; inversion H; subst; contradiction].
    apply sql_ne_true in S. destruct S as (owner & -> & Hown).
    rewrite !sql_case_not_null in H.
    insert_outcome H; [|discriminate].
    inversion H; subst. exists owner, title, target. repeat split; assumption. }
  assert (Once : forall d owner title target,
             v_vote_type NEW = 1%Z ->
             vote_target_lookup d NEW = (Some owner, title, target) ->
             owner <> v_user_id NEW ->
             chk (notice owner title target) = true ->
             create_vote_notification chk d NEW
             = Ok (set_notifications
                     (notifications d ++ [notice owner title target]) d, NEW)).
  { intros d owner title target V L Hown Hchk.
    unfold create_vote_notification. rewrite V, L, sql_guard_ne.
    rewrite (sql_ne_other _ _ Hown), !sql_case_not_null.
    rewrite insert_notification_accepted by exact Hchk. reflexivity. }
  split; [|split; [apply Only|split; [apply Once|split]]].
  - intros Hdown. unfold insert_vote, trigger_vote_notification.
    unfold create_vote_notification. rewrite Hdown. split; reflexivity.
  - intros owner title target V L Hown Hchk.
    unfold insert_vote, trigger_vote_notification. fold written.
    rewrite (Once written owner title target V L Hown Hchk). reflexivity.
  - intros db' H Hne. unfold insert_vote, trigger_vote_notification in H.
    fold written in H.
    destruct (create_vote_notification chk written NEW) as [[d row]|e] eqn:E;
      simpl in H; [|discriminate].
    inversion H; subst d.
    destruct (Only written db' row E Hne) as (owner & title & target & A & B & C & D).
    exists owner, title, target. repeat split; assumption.
Qed.

(** C4 on the forum: Alice downvotes Bob's R1, or upvotes it. *)
Lemma vote_notification_only_for_upvotes_witness :
  create_vote_notification unconstrained forum (mkVote "V1" alice None (Some "R1") (-1))
  = Ok (forum, mkVote "V1" alice None (Some "R1") (-1))
  /\ create_vote_notification unconstrained forum (mkVote "V2" alice None (Some "R1") 1)
     = Ok (set_notifications
             [mkNotification (Some bob) (Some "vote") (Some "Upvoted")
                (Some (((("Someone upvoted your " ++ "answer") ++ (" on: " ++ dquote))
                         ++ "How to sort a list?") ++ dquote))
                None (Some "R1") false] forum,
           mkVote "V2" alice None (Some "R1") 1)
  /\ insert_vote unconstrained forum (mkVote "V2" alice None (Some "R1") 1)
     = Ok (mkDatabase [Q] [R1; R2] [mkVote "V2" alice None (Some "R1") 1] []
             [mkNotification (Some bob) (Some "vote") (Some "Upvoted")
                (Some (((("Someone upvoted your " ++ "answer") ++ (" on: " ++ dquote))
                         ++ "How to sort a list?") ++ dquote))
                None (Some "R1") false]).
Proof.
  split; [|split].
  - apply (vote_notification_only_for_upvotes unconstrained forum
             (mkVote "V1" alice None (Some "R1") (-1))).
    reflexivity.
  - apply (proj1 (proj2 (proj2 (vote_notification_only_for_upvotes unconstrained forum
                           (mkVote "V2" alice None (Some "R1") 1))))
             bob (Some "How to sort a list?") (Some "answer")).
    + reflexivity.
    + reflexivity.
    + discriminate.
    + reflexivity.
  - apply (proj1 (proj2 (proj2 (proj2
                    (vote_notification_only_for_upvotes unconstrained forum
                       (mkVote "V2" alice None (Some "R1") 1)))))
             bob (Some "How to sort a list?") (Some "answer")).
    + reflexivity.
    + reflexivity.
    + discriminate.
    + reflexivity.
Defined.

(** ** Comments *)



(** ** Errors of the derivation *)


(** The tail of a function that reached its [INSERT], seen from the
    trigger. *)
Lemma insert_decided {R : Type} chk db (NEW : R) u ty ti m qid aid :
  (r <- (db1 <- insert_notification chk db u ty ti m qid aid ;; Ok (db1, NEW)) ;;
   Ok (fst r))
  = if chk (mkNotification u ty ti m qid aid false)
    then Ok (set_notifications
               (notifications db ++ [mkNotification u ty ti m qid aid false]) db)
    else Raise (check_violation "notifications").
Proof.
  unfold insert_notification, read_default. destruct (chk _); reflexivity.
Qed.

(** Whether a trigger writes, and which row, does not depend on what the
    notifications table accepts; the table only decides between the row
    written and the error. *)
Lemma fire_decided db e :
  (forall chk, fire chk db e = Ok db)
  \/ (exists n, forall chk,
         fire chk db e
         = if chk n
           then Ok (set_notifications (notifications db ++ [n]) db)
           else Raise (check_violation "notifications")).
Proof.
  destruct e as [NEW | OLD NEW | NEW | NEW]; unfold_triggers.
  - destruct (select_question_owner_title db (a_question_id NEW)) as [o t].
    destruct (sql_true (sql_ne o (Some (a_user_id NEW)))).
    + right. eexists. intros chk. apply insert_decided.
    + left. reflexivity.
  - destruct (sql_true
                (sql_and (is_not_null (q_accepted_answer_id NEW))
                   (sql_or (is_null (q_accepted_answer_id OLD))
                      (sql_ne (q_accepted_answer_id OLD) (q_accepted_answer_id NEW)))));
      [|left; reflexivity].
    destruct (sql_true (sql_ne _ (Some (q_user_id NEW)))).
    + right. eexists. intros chk. apply insert_decided.
    + left. reflexivity.
  - destruct (sql_true (sql_eq_int (Some (v_vote_type NEW)) (Some 1%Z)));
      [|left; reflexivity].
    destruct (vote_target_lookup db NEW) as [[o t] vt].
    destruct (sql_true (sql_and (is_not_null o) (sql_ne o (Some (v_user_id NEW))))).
    + right. eexists. intros chk. apply insert_decided.
    + left. reflexivity.
  - destruct (comment_target_lookup db NEW) as [[o t] ty].
    destruct (sql_true (sql_and (is_not_null o) (sql_ne o (Some (c_user_id NEW))))).
    + right. eexists. intros chk. apply insert_decided.
    + left. reflexivity.
Qed.






(** ** One vote per user and target *)

Lemma filter_filter_comm {A : Type} (p q : A -> bool) (l : list A) :
  filter p (filter q l) = filter q (filter p l).
Proof.
  induction l as [|x l IH]; simpl; [reflexivity|].
  destruct (p x) eqn:Hp, (q x) eqn:Hq; simpl; rewrite ?Hp, ?Hq, IH; reflexivity.
Qed.

Lemma filter_length_le {A : Type} (p : A -> bool) (l : list A) :
  (length (filter p l) <= length l)%nat.
Proof.
  induction l as [|x l IH]; simpl; [lia|]. destruct (p x); simpl; lia.
Qed.

Lemma filter_map_stable {A : Type} (p : A -> bool) (f : A -> A) (l : list A) :
  (forall x, p (f x) = p x) ->
  filter p (map f l) = map f (filter p l).
Proof.
  intros H. induction l as [|x l IH]; simpl; [reflexivity|].
  rewrite H. destruct (p x); simpl; now rewrite IH.
Qed.

Lemma trigger_vote_same_content chk db NEW d' :
  trigger_vote_notification chk db NEW = Ok d' -> same_content db d'.
Proof.
  unfold trigger_vote_notification. intros H.
  destruct (create_vote_notification chk db NEW) as [[d r]|e] eqn:E;
    simpl in H; [|discriminate].
  inversion H; subst d'.
  now destruct (frame_same_content _ _ _ _ _ _
                  (create_vote_notification_frame chk db NEW) E).
Qed.

(** What [insert_vote] leaves in the votes table when the caller ignores its
    error. *)
Lemma run_insert_vote_votes chk db row :
  votes (run db (insert_vote chk db row)) = (votes db ++ [row])%list
  \/ votes (run db (insert_vote chk db row)) = votes db.
Proof.
  unfold insert_vote.
  destruct (trigger_vote_notification chk _ row) as [d'|e] eqn:E; simpl.
  - left. apply trigger_vote_same_content in E. now destruct E as (_ & _ & -> & _).
  - now right.
Qed.

(** A user with no logged-in session, or whose existing vote is found, never
    adds a row; a row is added only when the query finds no single vote. *)
Lemma handleVote_preserves chk user t targetId voteType new_id db :
  one_vote_per_target db ->
  one_vote_per_target (handleVote chk user t targetId voteType new_id db).
Proof.
  intros Inv. unfold handleVote.
  destruct user as [u|]; [|exact Inv].
  destruct (single (votes_of db u t targetId)) as [ev|] eqn:S.
  - destruct (Z.eqb (v_vote_type ev) voteType).
    + intros u' t' tid'. unfold votes_of, delete_votes. simpl votes.
      rewrite filter_filter_comm.
      etransitivity; [apply filter_length_le|apply (Inv u' t' tid')].
    + intros u' t' tid'. unfold votes_of, update_votes. simpl votes.
      rewrite filter_map_stable.
      * rewrite length_map. apply (Inv u' t' tid').
      * intros v. destruct (uuid_eqb (v_id v) (v_id ev)); [|reflexivity].
        destruct t'; reflexivity.
  - intros u' t' tid'. unfold votes_of.
    destruct (run_insert_vote_votes chk db
                (match t with
                 | target_question => mkVote new_id u (Some targetId) None voteType
                 | target_answer => mkVote new_id u None (Some targetId) voteType
                 end)) as [E|E]; rewrite E; [|apply (Inv u' t' tid')].
    rewrite filter_app, length_app. simpl.
    destruct (uuid_eqb _ u' && eq_filter _ tid') eqn:M; simpl;
      [|specialize (Inv u' t' tid'); unfold votes_of in Inv; lia].
    apply andb_prop in M. destruct M as [Mu Mt].
    assert (u = u' /\ t = t' /\ targetId = tid') as (<- & <- & <-).
    { destruct t, t'; simpl in Mu, Mt; try discriminate;
        apply uuid_eqb_eq in Mu; apply uuid_eqb_eq in Mt; now subst. }
    specialize (Inv u t targetId). unfold votes_of in *.
    destruct (filter _ (votes db)) as [|v [|v' l]]; simpl in *;
      [lia | discriminate | lia].
Qed.

Lemma handleVotes_preserve chk clicks :
  forall db, one_vote_per_target db -> one_vote_per_target (handleVotes chk clicks db).
Proof.
  unfold handleVotes.
  induction clicks as [|c clicks IH]; simpl; intros db Inv; [exact Inv|].
  apply IH. now apply handleVote_preserves.
Qed.

Lemma votes_of_self db u t targetId ev :
  votes_of db u t targetId = [ev] ->
  uuid_eqb (v_user_id ev) u && eq_filter (column t ev) targetId = true.
Proof.
  intros H. assert (HIn : In ev (votes_of db u t targetId)) by (rewrite H; now left).
  unfold votes_of in HIn. apply filter_In in HIn. apply HIn.
Qed.

(** C9. Votes cast through [handleVote], one call after the other, keep at
    most one row per user and target: the property is kept by every sequence
    of calls, so it holds after any sequence that starts with no votes.  A
    vote by a user who already has one on the target adds no row: in the same
    direction it leaves the user without a vote on the target, in the other
    direction it leaves the earlier row with its [vote_type] replaced. *)
Theorem at_most_one_vote_per_user_and_target chk :
  (forall clicks db,
      one_vote_per_target db -> one_vote_per_target (handleVotes chk clicks db))
  /\ (forall clicks qs ans cs ns,
      one_vote_per_target (handleVotes chk clicks (mkDatabase qs ans [] cs ns)))
  /\ (forall u t targetId voteType new_id db ev,
      votes_of db u t targetId = [ev] ->
      let db' := handleVote chk (Some u) t targetId voteType new_id db in
      (length (votes db') <= length (votes db))%nat
      /\ (v_vote_type ev = voteType -> votes_of db' u t targetId = [])
      /\ (v_vote_type ev <> voteType ->
          votes_of db' u t targetId
          = [mkVote (v_id ev) (v_user_id ev) (v_question_id ev) (v_answer_id ev)
               voteType])).
Proof.
  split; [|split].
  - intros clicks db. apply handleVotes_preserve.
  - intros clicks qs ans cs ns. apply handleVotes_preserve.
    intros u t targetId. simpl. lia.
  - intros u t targetId voteType new_id db ev Hev db'.
    pose proof (votes_of_self _ _ _ _ _ Hev) as Hself.
    subst db'. unfold handleVote. rewrite Hev. simpl single. cbv iota.
    destruct (Z.eqb_spec (v_vote_type ev) voteType) as [Heq|Hne].
    + split; [|split].
      * unfold delete_votes. simpl votes. apply filter_length_le.
      * intros _. unfold votes_of, delete_votes in *. simpl votes.
        rewrite filter_filter_comm, Hev. simpl. now rewrite uuid_eqb_refl.
      * intros H. contradiction.
    + split; [|split].
      * unfold update_votes. simpl votes. now rewrite length_map.
      * intros H. contradiction.
      * intros _. unfold votes_of, update_votes in *. simpl votes.
        rewrite filter_map_stable.
        -- rewrite Hev. simpl. now rewrite uuid_eqb_refl.
        -- intros v. destruct (uuid_eqb (v_id v) (v_id ev)); [|reflexivity].
           destruct t; reflexivity.
Qed.

(** C9 on the forum: Alice upvotes R1 twice, then downvotes it twice, then
    upvotes and downvotes it. *)
Lemma at_most_one_vote_per_user_and_target_witness :
  one_vote_per_target
    (handleVotes unconstrained
       [mkClick (Some alice) target_answer "R1" 1 "V1";
        mkClick (Some alice) target_answer "R1" 1 "V2";
        mkClick (Some alice) target_answer "R1" (-1) "V3";
        mkClick (Some alice) target_answer "R1" (-1) "V4";
        mkClick (Some alice) target_answer "R1" 1 "V5";
        mkClick (Some alice) target_answer "R1" (-1) "V6"]
       forum)
  /\ votes_of
       (handleVote unconstrained (Some alice) target_answer "R1" (-1) "V2"
          (set_votes [mkVote "V1" alice None (Some "R1") 1] forum))
       alice target_answer "R1"
     = [mkVote "V1" alice None (Some "R1") (-1)].
Proof.
  split.
  - apply (proj1 (at_most_one_vote_per_user_and_target unconstrained)).
    intros u t targetId. simpl. lia.
  - apply (proj2 (proj2 (at_most_one_vote_per_user_and_target unconstrained))
             alice target_answer "R1" (-1)%Z "V2"
             (set_votes [mkVote "V1" alice None (Some "R1") 1] forum)
             (mkVote "V1" alice None (Some "R1") 1)).
    + reflexivity.
    + discriminate.
Defined.

(** ** The accepted flags *)





Lemma forum_consistent : accepted_flags_consistent forum.
Proof.
  split.
  - intros a q [<-|[<-|[]]] [<-|[]] _; simpl; split; discriminate.
  - intros q [<-|[]]; simpl. split; [discriminate|]. intros H. now contradiction H.
Defined.


(** * Further properties *)

(** ** What the triggers write *)

Lemma select_question_owner_title_some db qid o t :
  select_question_owner_title db qid = (Some o, t) -> t <> None.
Proof.
  unfold select_question_owner_title.
  destruct (find _ (questions db)); intros H; inversion H; discriminate.
Qed.

Lemma select_answer_owner_question_title_some db aid o t :
  select_answer_owner_question_title db aid = (Some o, t) -> t <> None.
Proof.
  unfold select_answer_owner_question_title.
  destruct (join_answer_question db aid) as [|[o' t'] l];
    intros H; inversion H; discriminate.
Qed.

Lemma vote_target_lookup_some db NEW o t vt :
  vote_target_lookup db NEW = (Some o, t, vt) ->
  t <> None /\ vt <> None /\ (v_question_id NEW <> None \/ v_answer_id NEW <> None).
Proof.
  unfold vote_target_lookup.
  destruct (v_question_id NEW) as [qid|]; [|destruct (v_answer_id NEW) as [aid|]];
    intros H.
  - destruct (select_question_owner_title db qid) as [o' t'] eqn:E.
    inversion H; subst. apply select_question_owner_title_some in E.
    repeat split; [exact E|discriminate|left; discriminate].
  - destruct (select_answer_owner_question_title db aid) as [o' t'] eqn:E.
    inversion H; subst. apply select_answer_owner_question_title_some in E.
    repeat split; [exact E|discriminate|right; discriminate].
  - discriminate.
Qed.

Lemma comment_target_lookup_some db NEW o t ty :
  comment_target_lookup db NEW = (Some o, t, ty) ->
  t <> None
  /\ (ty = Some "comment_question" \/ ty = Some "comment_answer")
  /\ (c_question_id NEW <> None \/ c_answer_id NEW <> None).
Proof.
  unfold comment_target_lookup.
  destruct (c_question_id NEW) as [qid|]; [|destruct (c_answer_id NEW) as [aid|]];
    intros H.
  - destruct (select_question_owner_title db qid) as [o' t'] eqn:E.
    inversion H; subst. apply select_question_owner_title_some in E.
    repeat split; [exact E|now left|left; discriminate].
  - destruct (select_answer_owner_question_title db aid) as [o' t'] eqn:E.
    inversion H; subst. apply select_answer_owner_question_title_some in E.
    repeat split; [exact E|now right|right; discriminate].
  - discriminate.
Qed.

Lemma sql_concat_some a b : a <> None -> b <> None -> sql_concat a b <> None.
Proof. destruct a, b; simpl; congruence. Qed.

(** Projections of a row written out. *)
Ltac fields :=
  cbn [n_user_id n_type n_title n_message n_question_id n_answer_id n_read
       actor event_types].

(** Finishing a case where the function skipped its [INSERT]. *)
Ltac skipped H := simpl in H; inversion H; subst; now left.

Lemma fire_outcome chk db e db' :
  fire chk db e = Ok db' ->
  db' = db
  \/ exists n, well_formed_for e n /\ chk n = true
               /\ db' = set_notifications (notifications db ++ [n]) db.
Proof.
  destruct e as [NEW | OLD NEW | NEW | NEW]; unfold_triggers; intros H.
  - destruct (select_question_owner_title db (a_question_id NEW)) as [o t] eqn:L.
    destruct (sql_true (sql_ne o _)) eqn:S; [|skipped H].
    apply sql_ne_true in S. destruct S as (owner & -> & Hown).
    apply select_question_owner_title_some in L.
    destruct (insert_notification_outcome chk db (Some owner) (Some "answer")
                (Some "New Answer")
                (sql_concat
                   (sql_concat (Some ("Someone answered your question: " ++ dquote)) t)
                   (Some dquote))
                (Some (a_question_id NEW)) (Some (a_id NEW))) as [[Hc E]|[_ E]];
      rewrite E in H; cbn [bind fst] in H; [|discriminate].
    inversion H; subst. right. eexists. split; [|split; [exact Hc|reflexivity]].
    repeat split; fields.
    + now exists owner.
    + exists "answer". split; [reflexivity|now left].
    + discriminate.
    + apply sql_concat_some; [apply sql_concat_some|]; try discriminate. exact L.
    + left. discriminate.
  - destruct (sql_true (sql_and _ _)) eqn:C; [|skipped H].
    apply accept_condition in C. destruct C as [C1 _].
    destruct (q_accepted_answer_id NEW) as [aid|] eqn:HNEW; [|contradiction].
    destruct (sql_true (sql_ne (select_answer_author db aid) _)) eqn:S; [|skipped H].
    apply sql_ne_true in S. destruct S as (author & Hsel & Hau). rewrite Hsel in H.
    destruct (insert_notification_outcome chk db (Some author) (Some "accepted")
                (Some "Answer Accepted")
                (sql_concat
                   (sql_concat (Some ("Your answer was accepted for: " ++ dquote))
                               (Some (q_title NEW)))
                   (Some dquote))
                (Some (q_id NEW)) (Some aid)) as [[Hc E]|[_ E]];
      rewrite E in H; cbn [bind fst] in H; [|discriminate].
    inversion H; subst. right. eexists. split; [|split; [exact Hc|reflexivity]].
    repeat split; fields.
    + now exists author.
    + exists "accepted". split; [reflexivity|now left].
    + discriminate.
    + discriminate.
    + left. discriminate.
  - destruct (sql_true (sql_eq_int _ _)) eqn:V; [|skipped H].
    destruct (vote_target_lookup db NEW) as [[o t] vt] eqn:L.
    rewrite sql_guard_ne in H.
    destruct (sql_true (sql_ne o _)) eqn:S; [|skipped H].
    apply sql_ne_true in S. destruct S as (owner & -> & Hown).
    apply vote_target_lookup_some in L. destruct L as (Lt & Lvt & Lid).
    rewrite !sql_case_not_null in H.
    destruct (insert_notification_outcome chk db (Some owner) (Some "vote")
                (Some "Upvoted")
                (sql_concat
                   (sql_concat
                      (sql_concat (sql_concat (Some "Someone upvoted your ") vt)
                                  (Some (" on: " ++ dquote)))
                      t)
                   (Some dquote))
                (v_question_id NEW) (v_answer_id NEW)) as [[Hc E]|[_ E]];
      rewrite E in H; cbn [bind fst] in H; [|discriminate].
    inversion H; subst. right. eexists. split; [|split; [exact Hc|reflexivity]].
    repeat split; fields.
    + now exists owner.
    + exists "vote". split; [reflexivity|now left].
    + discriminate.
    + repeat apply sql_concat_some; try discriminate; assumption.
    + exact Lid.
  - destruct (comment_target_lookup db NEW) as [[o t] ty] eqn:L.
    rewrite sql_guard_ne in H.
    destruct (sql_true (sql_ne o _)) eqn:S; [|skipped H].
    apply sql_ne_true in S. destruct S as (owner & -> & Hown).
    apply comment_target_lookup_some in L. destruct L as (Lt & Lty & Lid).
    rewrite !sql_case_not_null in H.
    destruct (insert_notification_outcome chk db (Some owner) ty
                (Some "New Comment")
                (sql_concat
                   (sql_concat
                      (sql_concat
                         (sql_concat (Some "Someone commented on your ")
                            (sql_case (is_not_null (c_question_id NEW))
                               (Some "question") (Some "answer")))
                         (Some (": " ++ dquote)))
                      t)
                   (Some dquote))
                (c_question_id NEW) (c_answer_id NEW)) as [[Hc E]|[_ E]];
      rewrite E in H; cbn [bind fst] in H; [|discriminate].
    inversion H; subst. right. eexists. split; [|split; [exact Hc|reflexivity]].
    repeat split; fields.
    + now exists owner.
    + destruct Lty as [->| ->]; eexists; (split; [reflexivity|]); simpl; auto.
    + discriminate.
    + repeat apply sql_concat_some; try discriminate; try assumption.
      destruct (c_question_id NEW); discriminate.
    + exact Lid.
Qed.

(** X1. Whatever the event, a trigger that succeeds either leaves the
    database as it was or appends exactly one row that the notifications
    table accepts and that is well formed for the event: addressed to a known
    user other than the actor, unread, of the event's type, with a title and
    a message that are not NULL, and pointing at a question or an answer. *)
Theorem fire_writes_well_formed chk db e db' :
  fire chk db e = Ok db' ->
  db' = db
  \/ exists n, well_formed_for e n /\ chk n = true
               /\ db' = set_notifications (notifications db ++ [n]) db.
Proof. apply fire_outcome. Qed.

(** X1 on the forum: Alice upvotes Bob's R1. *)
Lemma fire_writes_well_formed_witness :
  let e := vote_inserted (mkVote "V1" alice None (Some "R1") 1) in
  let db' :=
    set_notifications
      [mkNotification (Some bob) (Some "vote") (Some "Upvoted")
         (Some (((("Someone upvoted your " ++ "answer") ++ (" on: " ++ dquote))
                  ++ "How to sort a list?") ++ dquote))
         None (Some "R1") false] forum in
  db' = forum
  \/ exists n, well_formed_for e n /\ unconstrained n = true
               /\ db' = set_notifications (notifications forum ++ [n]) forum.
Proof.
  intros e db'. apply (fire_writes_well_formed unconstrained forum e db').
  reflexivity.
Defined.

(** ** An answer whose question is gone *)

Lemma filter_none {A : Type} (p : A -> bool) (l : list A) :
  (forall x, In x l -> p x = false) -> filter p l = [].
Proof.
  induction l as [|x l IH]; simpl; intros H; [reflexivity|].
  rewrite (H x) by now left. apply IH. intros y Hy. apply H. now right.
Qed.

Lemma flat_map_none {A B : Type} (f : A -> list B) (l : list A) :
  (forall x, In x l -> f x = []) -> flat_map f l = [].
Proof.
  induction l as [|x l IH]; simpl; intros H; [reflexivity|].
  rewrite (H x) by now left. apply IH. intros y Hy. apply H. now right.
Qed.

Lemma join_without_question db aid :
  (forall a q, In a (answers db) -> In q (questions db) ->
               a_id a = aid -> q_id q <> a_question_id a) ->
  select_answer_owner_question_title db aid = (None, None).
Proof.
  intros H. unfold select_answer_owner_question_title, join_answer_question.
  rewrite flat_map_none; [reflexivity|].
  intros a Ha. destruct (uuid_eqb (a_id a) aid) eqn:Ea; [|reflexivity].
  apply uuid_eqb_eq in Ea. rewrite filter_none; [reflexivity|].
  intros q Hq. apply uuid_eqb_neq. now apply (H a q).
Qed.

(** X2. The owner of an answer is resolved through a join with its question:
    when no question row matches the answer's [question_id], a vote or a
    comment on that answer writes no notification and raises nothing, even
    though the answer and its owner are there. *)
Theorem answer_without_question_is_silent chk db aid :
  (forall a q, In a (answers db) -> In q (questions db) ->
               a_id a = aid -> q_id q <> a_question_id a) ->
  (forall id u vt,
      create_vote_notification chk db (mkVote id u None (Some aid) vt)
      = Ok (db, mkVote id u None (Some aid) vt))
  /\ (forall id content u,
      create_comment_notification chk db (mkComment id content u None (Some aid))
      = Ok (db, mkComment id content u None (Some aid))).
Proof.
  intros H. apply join_without_question in H. split.
  - intros id u vt. unfold create_vote_notification, vote_target_lookup.
    cbn [v_question_id v_answer_id v_vote_type v_user_id]. rewrite H.
    case_if; reflexivity.
  - intros id content u. unfold create_comment_notification, comment_target_lookup.
    cbn [c_question_id c_answer_id c_user_id]. rewrite H. reflexivity.
Qed.

(** X2 on a forum that lost Q: Alice upvotes Bob's R1. *)
Lemma answer_without_question_is_silent_witness :
  create_vote_notification unconstrained (mkDatabase [] [R1; R2] [] [] [])
    (mkVote "V1" alice None (Some "R1") 1)
  = Ok (mkDatabase [] [R1; R2] [] [] [], mkVote "V1" alice None (Some "R1") 1).
Proof.
  apply (answer_without_question_is_silent unconstrained
           (mkDatabase [] [R1; R2] [] [] []) "R1").
  intros a q _ [].
Defined.

(** ** Updates of a question that are not an acceptance *)

(** X3. An [UPDATE] of questions whose assignment leaves
    [accepted_answer_id] as it is, such as the view counter's, rewrites the
    selected rows and nothing else: the accept trigger fires for every one of
    them, writes no notification and cannot make the statement fail, whatever
    the notifications table accepts. *)
Theorem update_without_acceptance_is_silent chk db
    (where_ : question -> bool) (set_ : question -> question) :
  (forall q, q_accepted_answer_id (set_ q) = q_accepted_answer_id q) ->
  update_questions chk db where_ set_
  = Ok (set_questions
          (map (fun q => if where_ q then set_ q else q) (questions db)) db).
Proof.
  intros H. unfold update_questions.
  apply update_triggers_unchanged. intros OLD _. symmetry. apply H.
Qed.

(** X3 on the forum: Q gets a new title. *)
Lemma update_without_acceptance_is_silent_witness :
  update_questions three_types_only forum_accepted
    (fun q => uuid_eqb (q_id q) "Q")
    (fun q => mkQuestion (q_id q) (q_user_id q) "Sorting" (q_accepted_answer_id q)
                         (q_is_answered q))
  = Ok (mkDatabase [mkQuestion "Q" alice "Sorting" (Some "R1") true]
          [R1_accepted; R2] [] [] []).
Proof.
  apply (update_without_acceptance_is_silent three_types_only forum_accepted
           (fun q => uuid_eqb (q_id q) "Q")
           (fun q => mkQuestion (q_id q) (q_user_id q) "Sorting"
                       (q_accepted_answer_id q) (q_is_answered q))).
  reflexivity.
Defined.

(** ** Votes cast from the page *)

(** X4. A click by a user who already has a vote on the target touches the
    votes table only: no notification is written, whether the click cancels
    the vote or turns a downvote into an upvote, because the vote trigger is
    attached to inserts alone. *)
Theorem handleVote_change_of_mind_is_silent chk u t targetId voteType new_id db ev :
  votes_of db u t targetId = [ev] ->
  let db' := handleVote chk (Some u) t targetId voteType new_id db in
  notifications db' = notifications db
  /\ questions db' = questions db
  /\ answers db' = answers db
  /\ comments db' = comments db.
Proof.
  intros Hev db'. subst db'. unfold handleVote. rewrite Hev. simpl single. cbv iota.
  destruct (Z.eqb (v_vote_type ev) voteType); repeat split.
Qed.

(** X4 on the forum: Alice turns her downvote on R1 into an upvote. *)
Lemma handleVote_change_of_mind_is_silent_witness :
  notifications
    (handleVote unconstrained (Some alice) target_answer "R1" 1 "V2"
       (set_votes [mkVote "V1" alice None (Some "R1") (-1)] forum))
  = [].
Proof.
  apply (handleVote_change_of_mind_is_silent unconstrained alice target_answer
           "R1" 1%Z "V2" (set_votes [mkVote "V1" alice None (Some "R1") (-1)] forum)
           (mkVote "V1" alice None (Some "R1") (-1))).
  reflexivity.
Defined.

Lemma create_vote_notification_writes chk db NEW owner title target :
  v_vote_type NEW = 1%Z ->
  vote_target_lookup db NEW = (Some owner, title, target) ->
  owner <> v_user_id NEW ->
  let n := mkNotification (Some owner) (Some "vote") (Some "Upvoted")
             (sql_concat
                (sql_concat
                   (sql_concat (sql_concat (Some "Someone upvoted your ") target)
                               (Some (" on: " ++ dquote)))
                   title)
                (Some dquote))
             (v_question_id NEW) (v_answer_id NEW) false in
  chk n = true ->
  create_vote_notification chk db NEW
  = Ok (set_notifications (notifications db ++ [n]) db, NEW).
Proof.
  intros V L Hown n Hchk.
  unfold create_vote_notification. rewrite V, L, sql_guard_ne.
  rewrite (sql_ne_other _ _ Hown), !sql_case_not_null.
  rewrite insert_notification_accepted by exact Hchk. reflexivity.
Qed.

(** The row that [handleVote] inserts. *)
Lemma vote_target_lookup_votes db vs NEW :
  vote_target_lookup (set_votes vs db) NEW = vote_target_lookup db NEW.
Proof. reflexivity. Qed.

(** X5. A first upvote from the page on content owned by someone else (the
    notifications table accepting the row) adds exactly the vote row, for the
    clicked column only, and exactly one notification of type [vote] for the
    owner. *)
Theorem handleVote_first_upvote_notifies chk u t targetId new_id db owner title target :
  let row :=
    match t with
    | target_question => mkVote new_id u (Some targetId) None 1
    | target_answer => mkVote new_id u None (Some targetId) 1
    end in
  let n := mkNotification (Some owner) (Some "vote") (Some "Upvoted")
             (sql_concat
                (sql_concat
                   (sql_concat (sql_concat (Some "Someone upvoted your ") target)
                               (Some (" on: " ++ dquote)))
                   title)
                (Some dquote))
             (v_question_id row) (v_answer_id row) false in
  votes_of db u t targetId = [] ->
  vote_target_lookup db row = (Some owner, title, target) ->
  owner <> u ->
  chk n = true ->
  handleVote chk (Some u) t targetId 1 new_id db
  = mkDatabase (questions db) (answers db) (votes db ++ [row]) (comments db)
               (notifications db ++ [n]).
Proof.
  intros row n Hnone L Hown Hchk.
  unfold handleVote. rewrite Hnone. simpl single. cbv iota.
  fold row. unfold insert_vote, trigger_vote_notification.
  rewrite (create_vote_notification_writes chk _ row owner title target).
  - reflexivity.
  - subst row. destruct t; reflexivity.
  - rewrite vote_target_lookup_votes. exact L.
  - subst row. destruct t; exact Hown.
  - exact Hchk.
Qed.

(** X5 on the forum: Alice upvotes Bob's R1. *)
Lemma handleVote_first_upvote_notifies_witness :
  handleVote unconstrained (Some alice) target_answer "R1" 1 "V1" forum
  = mkDatabase [Q] [R1; R2] [mkVote "V1" alice None (Some "R1") 1] []
      [mkNotification (Some bob) (Some "vote") (Some "Upvoted")
         (Some (((("Someone upvoted your " ++ "answer") ++ (" on: " ++ dquote))
                  ++ "How to sort a list?") ++ dquote))
         None (Some "R1") false].
Proof.
  apply (handleVote_first_upvote_notifies unconstrained alice target_answer "R1" "V1"
           forum bob (Some "How to sort a list?") (Some "answer")).
  - reflexivity.
  - reflexivity.
  - discriminate.
  - reflexivity.
Defined.

Lemma filter_all {A : Type} (p : A -> bool) (l : list A) :
  (forall x, In x l -> p x = true) -> filter p l = l.
Proof.
  induction l as [|x l IH]; simpl; intros H; [reflexivity|].
  rewrite (H x) by now left. f_equal. apply IH. intros y Hy. apply H. now right.
Qed.

(** The row that a click inserts. *)
Lemma handleVote_insert chk u t targetId voteType new_id db :
  votes_of db u t targetId = [] ->
  handleVote chk (Some u) t targetId voteType new_id db
  = run db
      (insert_vote chk db
         (match t with
          | target_question => mkVote new_id u (Some targetId) None voteType
          | target_answer => mkVote new_id u None (Some targetId) voteType
          end)).
Proof. intros H. unfold handleVote. rewrite H. reflexivity. Qed.

Lemma handleVote_cancel chk u t targetId new_id db ev :
  votes_of db u t targetId = [ev] ->
  handleVote chk (Some u) t targetId (v_vote_type ev) new_id db
  = delete_votes db (fun v => uuid_eqb (v_id v) (v_id ev)).
Proof.
  intros H. unfold handleVote. rewrite H. simpl single. cbv iota.
  now rewrite Z.eqb_refl.
Qed.

(** Whether the vote trigger raises depends on the questions, the answers
    and the columns of the vote other than its id. *)
Lemma trigger_vote_raise_stable chk d1 d2 r1 r2 e :
  questions d1 = questions d2 ->
  answers d1 = answers d2 ->
  v_user_id r1 = v_user_id r2 ->
  v_question_id r1 = v_question_id r2 ->
  v_answer_id r1 = v_answer_id r2 ->
  v_vote_type r1 = v_vote_type r2 ->
  trigger_vote_notification chk d1 r1 = Raise e ->
  trigger_vote_notification chk d2 r2 = Raise e.
Proof.
  intros Hq Ha Hu Hqi Hai Hvt.
  assert (L : vote_target_lookup d1 r1 = vote_target_lookup d2 r2).
  { unfold vote_target_lookup, select_question_owner_title,
      select_answer_owner_question_title, join_answer_question.
    now rewrite Hq, Ha, Hqi, Hai. }
  unfold trigger_vote_notification, create_vote_notification.
  rewrite L, Hu, Hqi, Hai, Hvt.
  case_if; [|discriminate].
  destruct (vote_target_lookup d2 r2) as [[o t] vt].
  case_if; [|discriminate].
  unfold insert_notification. case_if; [discriminate|]. trivial.
Qed.

(** X6. Two clicks in a row on the same arrow by a user without a vote on the
    target leave the votes table, and the other content tables, as they
    were: the second click removes the row that the first inserted, and if
    the first insert was refused so is the second.  The id of the first row is
    one that no vote has. *)
Theorem handleVote_twice_restores_votes chk u t targetId voteType new_id new_id' db :
  votes_of db u t targetId = [] ->
  (forall v, In v (votes db) -> v_id v <> new_id) ->
  let db2 :=
    handleVote chk (Some u) t targetId voteType new_id'
      (handleVote chk (Some u) t targetId voteType new_id db) in
  votes db2 = votes db
  /\ questions db2 = questions db
  /\ answers db2 = answers db
  /\ comments db2 = comments db.
Proof.
  intros Hnone Hfresh db2. subst db2.
  rewrite (handleVote_insert chk u t targetId voteType new_id db Hnone).
  set (row := match t with
              | target_question => mkVote new_id u (Some targetId) None voteType
              | target_answer => mkVote new_id u None (Some targetId) voteType
              end).
  unfold insert_vote.
  destruct (trigger_vote_notification chk (set_votes (votes db ++ [row]) db) row)
    as [d1|e] eqn:E; simpl run.
  - apply trigger_vote_same_content in E. destruct E as (Hq & Ha & Hv & Hc).
    simpl in Hq, Ha, Hv, Hc.
    assert (Hself : uuid_eqb (v_user_id row) u && eq_filter (column t row) targetId
                    = true).
    { subst row. destruct t; simpl; unfold uuid_eqb; now rewrite !String.eqb_refl. }
    assert (Hone : votes_of d1 u t targetId = [row]).
    { unfold votes_of in *. rewrite Hv, filter_app, Hnone. simpl.
      now rewrite Hself. }
    assert (Hvt : v_vote_type row = voteType) by (subst row; destruct t; reflexivity).
    assert (Hid : v_id row = new_id) by (subst row; destruct t; reflexivity).
    pose proof (handleVote_cancel chk u t targetId new_id' d1 row Hone) as E2.
    rewrite Hvt, Hid in E2. rewrite E2.
    unfold delete_votes. cbn [votes questions answers comments set_votes].
    rewrite Hv, filter_app.
    assert (F1 : filter (fun v => negb (uuid_eqb (v_id v) new_id)) (votes db) = votes db).
    { apply filter_all. intros v Hin. apply negb_true_iff, uuid_eqb_neq.
      now apply Hfresh. }
    assert (F2 : filter (fun v => negb (uuid_eqb (v_id v) new_id)) [row] = []).
    { simpl. now rewrite Hid, uuid_eqb_refl. }
    rewrite F1, F2, app_nil_r. now repeat split.
  - rewrite (handleVote_insert chk u t targetId voteType new_id' db Hnone).
    unfold insert_vote.
    set (row' := match t with
                 | target_question => mkVote new_id' u (Some targetId) None voteType
                 | target_answer => mkVote new_id' u None (Some targetId) voteType
                 end).
    assert (E' : trigger_vote_notification chk (set_votes (votes db ++ [row']) db) row'
                 = Raise e).
    { apply (trigger_vote_raise_stable chk (set_votes (votes db ++ [row]) db) _ row);
        try exact E; subst row row'; destruct t; reflexivity. }
    rewrite E'. now repeat split.
Qed.

(** X6 on the forum: Alice clicks the up arrow of R1 twice. *)
Lemma handleVote_twice_restores_votes_witness :
  votes
    (handleVote unconstrained (Some alice) target_answer "R1" 1 "V2"
       (handleVote unconstrained (Some alice) target_answer "R1" 1 "V1" forum))
  = [].
Proof.
  apply (handleVote_twice_restores_votes unconstrained alice target_answer "R1"
           1%Z "V1" "V2" forum).
  - reflexivity.
  - intros v [].
Defined.

(** ** Accepting from the page *)

Lemma filter_key_unique {A : Type} (key : A -> uuid) (l : list A) (x : A) :
  NoDup (map key l) -> In x l ->
  filter (fun y => uuid_eqb (key y) (key x)) l = [x].
Proof.
  induction l as [|y l IH]; simpl; intros Hnd Hin; [contradiction|].
  inversion Hnd as [|? ? Hnotin Hnd']; subst.
  destruct Hin as [->|Hin].
  - rewrite uuid_eqb_refl. f_equal. apply filter_none.
    intros z Hz. apply uuid_eqb_neq. intros E. apply Hnotin. rewrite <- E.
    now apply in_map.
  - destruct (uuid_eqb (key y) (key x)) eqn:E.
    + apply uuid_eqb_eq in E. exfalso. apply Hnotin. rewrite E. now apply in_map.
    + now apply IH.
Qed.

Lemma create_accept_notification_writes chk db OLD NEW aid author :
  q_accepted_answer_id NEW = Some aid ->
  q_accepted_answer_id OLD <> Some aid ->
  select_answer_author db aid = Some author ->
  author <> q_user_id NEW ->
  let n := mkNotification (Some author) (Some "accepted") (Some "Answer Accepted")
             (Some ((("Your answer was accepted for: " ++ dquote) ++ q_title NEW)
                      ++ dquote))
             (Some (q_id NEW)) (Some aid) false in
  chk n = true ->
  create_accept_notification chk db OLD NEW
  = Ok (set_notifications (notifications db ++ [n]) db, NEW).
Proof.
  intros HNEW HOLD Hsel Hne n Hchk. unfold create_accept_notification.
  assert (C : sql_true
                (sql_and (is_not_null (q_accepted_answer_id NEW))
                   (sql_or (is_null (q_accepted_answer_id OLD))
                      (sql_ne (q_accepted_answer_id OLD)
                         (q_accepted_answer_id NEW)))) = true).
  { apply accept_condition. rewrite HNEW. split; [discriminate|].
    destruct (q_accepted_answer_id OLD); [right; congruence | now left]. }
  rewrite C, HNEW, Hsel, (sql_ne_other _ _ Hne). simpl sql_concat.
  rewrite insert_notification_accepted by exact Hchk. reflexivity.
Qed.

(** The first statement of [acceptAnswer] on a question that is the only row
    with its id: one firing of the trigger. *)
Lemma accept_question_single chk db q aid :
  NoDup (map q_id (questions db)) -> In q (questions db) ->
  accept_question chk db (q_id q) aid
  = trigger_accept_notification chk
      (set_questions
         (map (fun r => if uuid_eqb (q_id r) (q_id q)
                        then mkQuestion (q_id r) (q_user_id r) (q_title r) (Some aid) true
                        else r) (questions db)) db)
      q (mkQuestion (q_id q) (q_user_id q) (q_title q) (Some aid) true).
Proof.
  intros Hnd Hin. unfold accept_question, update_questions.
  rewrite (filter_key_unique q_id (questions db) q Hnd Hin). reflexivity.
Qed.

(** X7. The owner of a question, which is the only row with its id, accepts
    from the page an answer that the question does not name yet.  When the
    answer's author is someone else (the notifications table accepting the
    row), the question names the answer and is flagged answered, the answer
    is flagged accepted, and exactly one notification of type [accepted] goes
    to the author; when the author is the owner, the same writes happen and
    no notification. *)
Theorem acceptAnswer_notifies_author chk db q aid author :
  NoDup (map q_id (questions db)) ->
  In q (questions db) ->
  q_accepted_answer_id q <> Some aid ->
  select_answer_author db aid = Some author ->
  let qs' := map (fun r => if uuid_eqb (q_id r) (q_id q)
                           then mkQuestion (q_id r) (q_user_id r) (q_title r)
                                           (Some aid) true
                           else r) (questions db) in
  let as' := map (fun r => if uuid_eqb (a_id r) aid
                           then mkAnswer (a_id r) (a_question_id r) (a_user_id r) true
                           else r) (answers db) in
  let n := mkNotification (Some author) (Some "accepted") (Some "Answer Accepted")
             (Some ((("Your answer was accepted for: " ++ dquote) ++ q_title q)
                      ++ dquote))
             (Some (q_id q)) (Some aid) false in
  (author <> q_user_id q -> chk n = true ->
   acceptAnswer chk (Some (q_user_id q)) (Some q) (q_id q) aid db
   = mkDatabase qs' as' (votes db) (comments db) (notifications db ++ [n]))
  /\ (author = q_user_id q ->
      acceptAnswer chk (Some (q_user_id q)) (Some q) (q_id q) aid db
      = mkDatabase qs' as' (votes db) (comments db) (notifications db)).
Proof.
  intros Hnd Hin Hnot Hsel qs' as' n. split.
  - intros Hau Hchk. unfold acceptAnswer. rewrite uuid_eqb_refl. simpl negb. cbv iota.
    rewrite (accept_question_single chk db q aid Hnd Hin).
    unfold trigger_accept_notification.
    rewrite (create_accept_notification_writes chk _ q _ aid author);
      try assumption; reflexivity.
  - intros Hau. unfold acceptAnswer. rewrite uuid_eqb_refl. simpl negb. cbv iota.
    rewrite (accept_question_single chk db q aid Hnd Hin).
    pose proof (fire_suppressed chk (set_questions qs' db)
                  (question_updated q
                     (mkQuestion (q_id q) (q_user_id q) (q_title q) (Some aid) true)))
      as F.
    cbn [fire target_owner actor q_accepted_answer_id q_user_id] in F.
    change (select_answer_author (set_questions qs' db) aid)
      with (select_answer_author db aid) in F.
    rewrite Hsel, Hau in F. fold qs'. rewrite (F (sql_ne_self _)). reflexivity.
Qed.

(** X7 on the forum: Alice accepts Bob's R1. *)
Lemma acceptAnswer_notifies_author_witness :
  acceptAnswer unconstrained (Some alice) (Some Q) "Q" "R1" forum
  = mkDatabase [Q_accepted] [R1_accepted; R2] [] []
      [mkNotification (Some bob) (Some "accepted") (Some "Answer Accepted")
         (Some ((("Your answer was accepted for: " ++ dquote)
                  ++ "How to sort a list?") ++ dquote))
         (Some "Q") (Some "R1") false].
Proof.
  apply (proj1 (acceptAnswer_notifies_author unconstrained forum Q "R1" bob
                  ltac:(repeat constructor; simpl; intuition discriminate)
                  ltac:(simpl; auto)
                  ltac:(discriminate)
                  ltac:(reflexivity))).
  - discriminate.
  - reflexivity.
Defined.

(** X8. [acceptAnswer] ignores the error of its first statement: when the
    update of the question is refused with its notification, the question
    and the notifications stay as they were and the second statement still
    flags the answer as accepted, so that a database whose flags were
    consistent no longer is. *)
Theorem acceptAnswer_flags_after_refused_update chk db q a e :
  accepted_flags_consistent db ->
  In q (questions db) ->
  In a (answers db) ->
  a_question_id a = q_id q ->
  q_accepted_answer_id q <> Some (a_id a) ->
  accept_question chk db (q_id q) (a_id a) = Raise e ->
  let db' := acceptAnswer chk (Some (q_user_id q)) (Some q) (q_id q) (a_id a) db in
  questions db' = questions db
  /\ notifications db' = notifications db
  /\ (forall a', In a' (answers db') -> a_id a' = a_id a -> a_is_accepted a' = true)
  /\ ~ accepted_flags_consistent db'.
Proof.
  intros Inv Hq Ha Hqa Hnot Hraise db'.
  assert (E : db' = accept_answer_row db (a_id a)).
  { subst db'. unfold acceptAnswer. rewrite uuid_eqb_refl, Hraise. reflexivity. }
  rewrite E. unfold accept_answer_row, update_answers. simpl.
  split; [reflexivity|]. split; [reflexivity|]. split.
  - intros a' Ha' Hid. apply in_map_iff in Ha'. destruct Ha' as (a0 & <- & _).
    destruct (uuid_eqb (a_id a0) (a_id a)) eqn:W; [reflexivity|].
    apply uuid_eqb_neq in W. contradiction.
  - intros [InvA _]. simpl in InvA.
    apply Hnot.
    apply (InvA (mkAnswer (a_id a) (a_question_id a) (a_user_id a) true) q).
    + apply in_map_iff. exists a. rewrite uuid_eqb_refl. now split.
    + exact Hq.
    + simpl. now symmetry.
    + reflexivity.
Qed.

(** X8 on the forum with a notifications table that takes nothing: Alice
    accepts Bob's R1. *)
Lemma acceptAnswer_flags_after_refused_update_witness :
  let db' := acceptAnswer (fun _ => false) (Some alice) (Some Q) "Q" "R1" forum in
  questions db' = [Q]
  /\ notifications db' = []
  /\ (forall a', In a' (answers db') -> a_id a' = "R1" -> a_is_accepted a' = true)
  /\ ~ accepted_flags_consistent db'.
Proof.
  apply (acceptAnswer_flags_after_refused_update (fun _ => false) forum Q R1
           (check_violation "notifications") forum_consistent).
  - simpl; auto.
  - simpl; auto.
  - reflexivity.
  - discriminate.
  - reflexivity.
Defined.

(** An update that rewrites the rows it selects into themselves changes
    nothing and writes no notification. *)
Lemma update_questions_fixed chk db where_ set_ :
  (forall q, In q (questions db) -> where_ q = true -> set_ q = q) ->
  update_questions chk db where_ set_ = Ok db.
Proof.
  intros H. unfold update_questions.
  assert (Hmap : map (fun q => if where_ q then set_ q else q) (questions db)
                 = questions db).
  { rewrite <- (map_id (questions db)) at 2. apply map_ext_in. intros q Hq.
    destruct (where_ q) eqn:W; [now apply H|reflexivity]. }
  rewrite Hmap, set_questions_same.
  apply update_triggers_unchanged. intros OLD HIn.
  apply filter_In in HIn. destruct HIn as [HIn W]. now rewrite H.
Qed.

Lemma accept_answer_row_twice db aid :
  accept_answer_row (accept_answer_row db aid) aid = accept_answer_row db aid.
Proof.
  unfold accept_answer_row, update_answers, set_answers. simpl. f_equal.
  rewrite map_map. apply map_ext. intros a.
  destruct (uuid_eqb (a_id a) aid) eqn:W; simpl; now rewrite W.
Qed.

(** X9. Accepting the same answer a second time changes nothing: once a call
    of [acceptAnswer] has gone through, a second call with the same
    arguments leaves the database, notifications included, as the first call
    left it. *)
Theorem acceptAnswer_twice chk user question id answerId db d1 :
  accept_question chk db id answerId = Ok d1 ->
  let db1 := acceptAnswer chk user question id answerId db in
  acceptAnswer chk user question id answerId db1 = db1.
Proof.
  intros Hok db1. subst db1. unfold acceptAnswer.
  destruct user as [u|]; [|reflexivity].
  destruct question as [q|]; [|reflexivity].
  destruct (negb (uuid_eqb (q_user_id q) u)); [reflexivity|].
  rewrite Hok. simpl run.
  assert (Hq : questions d1
               = map (fun r => if uuid_eqb (q_id r) id
                               then mkQuestion (q_id r) (q_user_id r) (q_title r)
                                               (Some answerId) true
                               else r) (questions db)).
  { unfold accept_question, update_questions in Hok.
    apply update_triggers_same_content in Hok.
    destruct Hok as (d0 & E & (Hq & _)). inversion E; subst d0. exact Hq. }
  assert (Hfix : accept_question chk (accept_answer_row d1 answerId) id answerId
                 = Ok (accept_answer_row d1 answerId)).
  { unfold accept_question. apply update_questions_fixed.
    intros r Hr W. change (questions (accept_answer_row d1 answerId))
      with (questions d1) in Hr.
    rewrite Hq in Hr. apply in_map_iff in Hr. destruct Hr as (r0 & <- & _).
    destruct (uuid_eqb (q_id r0) id) eqn:W0; simpl in *.
    - reflexivity.
    - rewrite W0 in W. discriminate. }
  rewrite Hfix. simpl run. apply accept_answer_row_twice.
Qed.

(** X9 on the forum: Alice accepts Bob's R1 twice. *)
Lemma acceptAnswer_twice_witness :
  acceptAnswer unconstrained (Some alice) (Some Q) "Q" "R1"
    (acceptAnswer unconstrained (Some alice) (Some Q) "Q" "R1" forum)
  = acceptAnswer unconstrained (Some alice) (Some Q) "Q" "R1" forum.
Proof.
  apply (acceptAnswer_twice unconstrained (Some alice) (Some Q) "Q" "R1" forum
           (mkDatabase [Q_accepted] [R1; R2] [] []
              [mkNotification (Some bob) (Some "accepted") (Some "Answer Accepted")
                 (Some ((("Your answer was accepted for: " ++ dquote)
                          ++ "How to sort a list?") ++ dquote))
                 (Some "Q") (Some "R1") false])).
  reflexivity.
Defined.

(** ** Posting an answer *)

Section PostingProperties.

Variable chk : notification -> bool.
Variable trim : text -> text.
Variable message : sql_error -> text.

Lemma submitAnswer_cases user id answerContent new_id db :
  let r := submitAnswer chk trim message user id answerContent new_id db in
  let db' := fst (fst r) in
  (db' = db /\ snd r = answerContent /\ toast_destructive (snd (fst r)) = true)
  \/ (exists u,
        user = Some u
        /\ js_truthy (trim answerContent) = true
        /\ answers db' = (answers db ++ [mkAnswer new_id id u false])%list
        /\ questions db' = questions db
        /\ votes db' = votes db
        /\ comments db' = comments db
        /\ (notifications db' = notifications db
            \/ exists n,
                 well_formed_for (answer_inserted (mkAnswer new_id id u false)) n
                 /\ notifications db' = (notifications db ++ [n])%list)
        /\ snd r = EmptyString
        /\ toast_destructive (snd (fst r)) = false).
Proof.
  intros r db'. subst db' r. unfold submitAnswer.
  destruct user as [u|]; [|left; now repeat split].
  destruct (js_truthy (trim answerContent)) eqn:T; simpl negb; cbv iota;
    [|left; now repeat split].
  destruct (insert_answer chk db (mkAnswer new_id id u is_accepted_default))
    as [d|e] eqn:E; [|left; now repeat split].
  right. exists u. cbn [fst snd toast_destructive].
  unfold insert_answer in E.
  apply (fire_outcome chk _ (answer_inserted (mkAnswer new_id id u false))) in E.
  destruct E as [-> | (n & Hwf & _ & ->)].
  - repeat split; try reflexivity. now left.
  - repeat split; try reflexivity. right. exists n. now split.
Qed.

(** X10. [submitAnswer] either leaves the database and the editor as they
    were and shows an error, or, for a logged-in user with content that is
    not blank, appends exactly one answer (the page's question, the user,
    not accepted), leaves questions, votes and comments alone, writes at most
    one notification, well formed for the insert, empties the editor and
    shows a success. *)
Theorem submitAnswer_outcome user id answerContent new_id db :
  let r := submitAnswer chk trim message user id answerContent new_id db in
  let db' := fst (fst r) in
  (db' = db /\ snd r = answerContent /\ toast_destructive (snd (fst r)) = true)
  \/ (exists u,
        user = Some u
        /\ js_truthy (trim answerContent) = true
        /\ answers db' = (answers db ++ [mkAnswer new_id id u false])%list
        /\ questions db' = questions db
        /\ votes db' = votes db
        /\ comments db' = comments db
        /\ (notifications db' = notifications db
            \/ exists n,
                 well_formed_for (answer_inserted (mkAnswer new_id id u false)) n
                 /\ notifications db' = (notifications db ++ [n])%list)
        /\ snd r = EmptyString
        /\ toast_destructive (snd (fst r)) = false).
Proof. apply submitAnswer_cases. Qed.

(** X11. Posting an answer keeps the accepted flags consistent, provided no
    question of the page's id already names the id that the new answer
    gets. *)
Theorem submitAnswer_keeps_flags user id answerContent new_id db :
  accepted_flags_consistent db ->
  (forall q, In q (questions db) -> q_id q = id ->
             q_accepted_answer_id q <> Some new_id) ->
  accepted_flags_consistent
    (fst (fst (submitAnswer chk trim message user id answerContent new_id db))).
Proof.
  intros Inv Hfresh.
  destruct (submitAnswer_cases user id answerContent new_id db)
    as [(E & _) | (u & _ & _ & Ha & Hq & _)]; cbv zeta in *.
  - now rewrite E.
  - destruct Inv as [InvA InvQ]. unfold accepted_flags_consistent.
    rewrite Ha, Hq. split; [|exact InvQ].
    intros a q HIn Hqin Hid. apply in_app_or in HIn. destruct HIn as [HIn|[<-|[]]].
    + now apply InvA.
    + simpl in *. split; [discriminate|]. intros H. exfalso.
      now apply (Hfresh q Hqin Hid).
Qed.

End PostingProperties.

(** X11 on the forum: Carol posts a third answer. *)
Lemma submitAnswer_keeps_flags_witness :
  accepted_flags_consistent
    (fst (fst (submitAnswer unconstrained (fun s => s) (fun _ => EmptyString)
                 (Some carol) "Q" "Use a library" "R3" forum))).
Proof.
  apply (submitAnswer_keeps_flags unconstrained (fun s => s) (fun _ => EmptyString)
           (Some carol) "Q" "Use a library" "R3" forum forum_consistent).
  intros q [<-|[]] _. discriminate.
Defined.

(** ** The comment section *)

Section CommentProperties.

Variable chk : notification -> bool.
Variable trim : text -> text.
Variable message : sql_error -> text.

Lemma handleSubmitComment_cases user questionId answerId form new_id db :
  let r := handleSubmitComment chk trim message user questionId answerId form new_id db in
  let db' := fst (fst r) in
  (db' = db /\ newComment (snd r) = newComment form
   /\ toast_destructive (snd (fst r)) = true)
  \/ (exists u,
        let c := mkComment new_id (trim (newComment form)) u
                   (js_or_null questionId) (js_or_null answerId) in
        user = Some u
        /\ js_truthy (trim (newComment form)) = true
        /\ comments_has_target c = true
        /\ comments db' = (comments db ++ [c])%list
        /\ questions db' = questions db
        /\ answers db' = answers db
        /\ votes db' = votes db
        /\ (notifications db' = notifications db
            \/ exists n,
                 well_formed_for (comment_inserted c) n
                 /\ notifications db' = (notifications db ++ [n])%list)
        /\ snd r = mkForm EmptyString false false
        /\ toast_destructive (snd (fst r)) = false).
Proof.
  intros r db'. subst db' r. unfold handleSubmitComment.
  destruct user as [u|]; [|left; now repeat split].
  destruct (js_truthy (trim (newComment form))) eqn:T; simpl negb; cbv iota;
    [|left; now repeat split].
  destruct (insert_comment chk db _) as [d|e] eqn:E; [|left; now repeat split].
  right. exists u. cbn [fst snd toast_destructive]. cbv zeta.
  unfold insert_comment in E.
  destruct (comments_has_target _) eqn:C; [|discriminate].
  apply (fire_outcome chk _ (comment_inserted _)) in E.
  destruct E as [-> | (n & Hwf & _ & ->)].
  - repeat split; try reflexivity. now left.
  - repeat split; try reflexivity. right. exists n. now split.
Qed.

(** X12. [handleSubmitComment] either leaves the database and the typed text
    as they were and shows an error, or, for a logged-in user with a comment
    that is not blank in a section that has exactly one of its two targets,
    appends exactly one comment, holding the trimmed text, the user and that
    target, leaves the other content tables alone, writes at most one
    notification, well formed for the insert, and resets the form.  A section
    rendered with both targets or with none never stores a comment. *)
Theorem handleSubmitComment_outcome user questionId answerId form new_id db :
  let r := handleSubmitComment chk trim message user questionId answerId form new_id db in
  let db' := fst (fst r) in
  (db' = db /\ newComment (snd r) = newComment form
   /\ toast_destructive (snd (fst r)) = true)
  \/ (exists u,
        let c := mkComment new_id (trim (newComment form)) u
                   (js_or_null questionId) (js_or_null answerId) in
        user = Some u
        /\ js_truthy (trim (newComment form)) = true
        /\ comments_has_target c = true
        /\ comments db' = (comments db ++ [c])%list
        /\ questions db' = questions db
        /\ answers db' = answers db
        /\ votes db' = votes db
        /\ (notifications db' = notifications db
            \/ exists n,
                 well_formed_for (comment_inserted c) n
                 /\ notifications db' = (notifications db ++ [n])%list)
        /\ snd r = mkForm EmptyString false false
        /\ toast_destructive (snd (fst r)) = false).
Proof. apply handleSubmitComment_cases. Qed.

(** X13. [handleDeleteComment] removes exactly the comments that have the
    given id and belong to the logged-in user: a comment of anyone else
    stays, whatever id is passed.  It touches no other table, so the
    notification of a deleted comment stays too, and it shows a success even
    when it removed nothing.  Without a user it does nothing. *)
Theorem handleDeleteComment_own_only commentId db :
  handleDeleteComment None commentId db = (db, None)
  /\ (forall u,
      let r := handleDeleteComment (Some u) commentId db in
      (forall c, In c (comments (fst r))
                 <-> In c (comments db) /\ ~ (c_id c = commentId /\ c_user_id c = u))
      /\ (forall c, In c (comments db) -> c_user_id c <> u -> In c (comments (fst r)))
      /\ questions (fst r) = questions db
      /\ answers (fst r) = answers db
      /\ votes (fst r) = votes db
      /\ notifications (fst r) = notifications db
      /\ snd r = Some (mkToast "Success" "Comment deleted successfully!" false)).
Proof.
  split; [reflexivity|]. intros u r. subst r. unfold handleDeleteComment.
  cbn [fst snd]. unfold delete_comments. cbn [comments set_comments questions
    answers votes notifications].
  assert (M : forall c, In c (filter
                 (fun c => negb (uuid_eqb (c_id c) commentId && uuid_eqb (c_user_id c) u))
                 (comments db))
              <-> In c (comments db) /\ ~ (c_id c = commentId /\ c_user_id c = u)).
  { intros c. rewrite filter_In, negb_true_iff, andb_false_iff.
    rewrite !uuid_eqb_neq. split; intros [H1 H2]; (split; [exact H1|]).
    - intros [A B]. destruct H2; contradiction.
    - destruct (String.string_dec (c_id c) commentId) as [E|E]; [|now left].
      right. intros B. apply H2. now split. }
  split; [exact M|]. split; [|now repeat split].
  intros c Hc Hne. apply M. split; [exact Hc|]. intros [_ B]. contradiction.
Qed.

(** X14. A comment posted and then deleted by its author, under an id that
    no comment had, leaves the comments table as it was before the two
    calls; the deletion leaves in place whatever notification the comment
    produced. *)
Theorem comment_posted_then_deleted user questionId answerId form new_id db :
  (forall c, In c (comments db) -> c_id c <> new_id) ->
  let db1 :=
    fst (fst (handleSubmitComment chk trim message user questionId answerId form
                new_id db)) in
  let db2 := fst (handleDeleteComment user new_id db1) in
  comments db2 = comments db /\ notifications db2 = notifications db1.
Proof.
  intros Hfresh db1 db2. subst db2.
  destruct (handleSubmitComment_cases user questionId answerId form new_id db)
    as [(E & _) | (u & Hu & _ & _ & Hc & _)]; cbv zeta in *; fold db1 in E || fold db1 in Hc.
  - rewrite E. unfold handleDeleteComment. destruct user as [u|]; [|now split].
    cbn [fst]. unfold delete_comments. cbn [comments notifications set_comments].
    split; [|reflexivity]. apply filter_all. intros c Hc.
    apply negb_true_iff, andb_false_iff. left. apply uuid_eqb_neq. now apply Hfresh.
  - rewrite Hu. unfold handleDeleteComment. cbn [fst]. unfold delete_comments.
    cbn [comments notifications set_comments]. split; [|reflexivity].
    rewrite Hc, filter_app. simpl. rewrite !uuid_eqb_refl. simpl.
    rewrite app_nil_r. apply filter_all. intros c Hin.
    apply negb_true_iff, andb_false_iff. left. apply uuid_eqb_neq. now apply Hfresh.
Qed.

End CommentProperties.

(** X14 on the forum: Carol comments on Q and takes it back. *)
Lemma comment_posted_then_deleted_witness :
  let db1 :=
    fst (fst (handleSubmitComment unconstrained (fun s => s) (fun _ => EmptyString)
                (Some carol) (Some "Q") None (mkForm "Why?" false true) "C1" forum)) in
  comments (fst (handleDeleteComment (Some carol) "C1" db1)) = []
  /\ notifications (fst (handleDeleteComment (Some carol) "C1" db1))
     = notifications db1.
Proof.
  apply (comment_posted_then_deleted unconstrained (fun s => s) (fun _ => EmptyString)
           (Some carol) (Some "Q") None (mkForm "Why?" false true) "C1" forum).
  intros c [].
Defined.

(** ** Comments grouped by answer *)

Lemma obj_get_set_same {V : Type} (o : js_object V) k v :
  obj_get (obj_set o k v) k = Some v.
Proof.
  induction o as [|[k' v'] o IH]; simpl.
  - now rewrite uuid_eqb_refl.
  - destruct (uuid_eqb k' k) eqn:E; simpl.
    + now rewrite uuid_eqb_refl.
    + now rewrite E.
Qed.

Lemma obj_get_set_other {V : Type} (o : js_object V) k k' v :
  k <> k' -> obj_get (obj_set o k v) k' = obj_get o k'.
Proof.
  intros Hne. induction o as [|[k0 v0] o IH]; simpl.
  - apply uuid_eqb_neq in Hne. now rewrite Hne.
  - destruct (uuid_eqb k0 k) eqn:E; simpl.
    + apply uuid_eqb_eq in E. subst k0.
      apply uuid_eqb_neq in Hne. now rewrite Hne.
    + destruct (uuid_eqb k0 k'); [reflexivity|exact IH].
Qed.

Lemma group_step_lookup {A : Type} (answer_id : A -> option uuid) g c k :
  comments_of_answer (group_step answer_id g c) k
  = (comments_of_answer g k
     ++ if eq_filter (js_or_null (answer_id c)) k then [c] else [])%list.
Proof.
  unfold group_step. destruct (js_or_null (answer_id c)) as [k0|]; simpl eq_filter.
  - set (g1 := match obj_get g k0 with
               | Some _ => g
               | None => obj_set g k0 []
               end).
    assert (G1 : obj_get g1 k0 = Some (comments_of_answer g k0)).
    { subst g1. unfold comments_of_answer.
      destruct (obj_get g k0) as [arr|] eqn:E; [exact E|apply obj_get_set_same]. }
    assert (G2 : forall k', k0 <> k' -> obj_get g1 k' = obj_get g k').
    { intros k' Hne. subst g1.
      destruct (obj_get g k0); [reflexivity|now apply obj_get_set_other]. }
    rewrite G1. unfold comments_of_answer at 1.
    destruct (uuid_eqb k0 k) eqn:E.
    + apply uuid_eqb_eq in E. subst k0. now rewrite obj_get_set_same.
    + apply uuid_eqb_neq in E. rewrite obj_get_set_other, G2 by exact E.
      unfold comments_of_answer. now rewrite app_nil_r.
  - now rewrite app_nil_r.
Qed.

Lemma group_fold_lookup {A : Type} (answer_id : A -> option uuid) cs :
  forall g k,
    comments_of_answer (fold_left (group_step answer_id) cs g) k
    = (comments_of_answer g k
       ++ filter (fun c => eq_filter (js_or_null (answer_id c)) k) cs)%list.
Proof.
  induction cs as [|c cs IH]; simpl; intros g k.
  - now rewrite app_nil_r.
  - rewrite IH, group_step_lookup, <- app_assoc. f_equal.
    destruct (eq_filter (js_or_null (answer_id c)) k); reflexivity.
Qed.

(** X15. The comments that the page hands to the section of an answer are
    exactly the fetched comments whose [answer_id] is that answer's, in the
    order in which they were fetched; an answer without comments gets the
    empty list. *)
Theorem groupedComments_by_answer {A : Type} (answer_id : A -> option uuid)
    (transformedAComments : list A) (aid : uuid) :
  comments_of_answer (groupedComments answer_id transformedAComments) aid
  = filter (fun c => eq_filter (js_or_null (answer_id c)) aid) transformedAComments.
Proof.
  unfold groupedComments. rewrite group_fold_lookup. reflexivity.
Qed.

(** ** The notification bell *)

Lemma insert_created_at_desc_In x l y :
  In y (insert_created_at_desc x l) <-> y = x \/ In y l.
Proof.
  induction l as [|z l IH]; simpl.
  - intuition.
  - destruct (Z.leb (nr_created_at z) (nr_created_at x)); simpl.
    + intuition.
    + rewrite IH. intuition.
Qed.

Lemma order_created_at_desc_In l y :
  In y (order_created_at_desc l) <-> In y l.
Proof.
  induction l as [|x l IH]; simpl; [reflexivity|].
  rewrite insert_created_at_desc_In, IH. intuition.
Qed.

Lemma insert_created_at_desc_count (p : notification_row -> bool) x l :
  length (filter p (insert_created_at_desc x l)) = length (filter p (x :: l)).
Proof.
  induction l as [|z l IH]; simpl; [reflexivity|].
  destruct (Z.leb (nr_created_at z) (nr_created_at x)); simpl; [reflexivity|].
  simpl in IH. destruct (p z), (p x); simpl in *; lia.
Qed.

Lemma order_created_at_desc_count (p : notification_row -> bool) l :
  length (filter p (order_created_at_desc l)) = length (filter p l).
Proof.
  induction l as [|x l IH]; simpl; [reflexivity|].
  rewrite insert_created_at_desc_count. simpl. destruct (p x); simpl; lia.
Qed.

Lemma order_created_at_desc_length l :
  length (order_created_at_desc l) = length l.
Proof.
  rewrite <- (filter_all (fun _ => true) (order_created_at_desc l)) by reflexivity.
  rewrite order_created_at_desc_count. now rewrite filter_all.
Qed.

Lemma firstn_incl {A : Type} n (l : list A) x : In x (firstn n l) -> In x l.
Proof.
  intros H. rewrite <- (firstn_skipn n l). apply in_or_app. now left.
Qed.

Lemma filter_filter_and {A : Type} (p q : A -> bool) (l : list A) :
  filter q (filter p l) = filter (fun x => p x && q x) l.
Proof.
  induction l as [|x l IH]; simpl; [reflexivity|].
  destruct (p x); simpl; [destruct (q x)|]; now rewrite IH.
Qed.

Lemma select_notifications_In u tbl r :
  In r (select_notifications u tbl) ->
  In r tbl /\ n_user_id (nr_data r) = Some u.
Proof.
  unfold select_notifications. intros H. apply firstn_incl in H.
  apply order_created_at_desc_In, filter_In in H. destruct H as [H E].
  split; [exact H|].
  destruct (n_user_id (nr_data r)) as [o|]; simpl in E; [|discriminate].
  apply uuid_eqb_eq in E. now subst.
Qed.

(** X16. What the bell shows after a fetch: at most ten notifications, all
    of them rows of the table addressed to the user, and an unread count that
    counts unread rows among those ten only, so it never exceeds ten; when
    the user has at most ten notifications it is exactly the number of the
    user's unread rows. *)
Theorem fetchNotifications_window u tbl st :
  let st' := fetchNotifications (Some u) tbl st in
  (length (hs_notifications st') <= 10)%nat
  /\ (forall r, In r (hs_notifications st') ->
                In r tbl /\ n_user_id (nr_data r) = Some u)
  /\ (hs_unreadCount st' <= 10)%nat
  /\ ((length (filter (fun r => eq_filter (n_user_id (nr_data r)) u) tbl) <= 10)%nat ->
      hs_unreadCount st'
      = length (filter (fun r => eq_filter (n_user_id (nr_data r)) u
                                 && negb (n_read (nr_data r))) tbl)).
Proof.
  intros st'. subst st'. unfold fetchNotifications.
  cbn [hs_notifications hs_unreadCount].
  assert (L : (length (select_notifications u tbl) <= 10)%nat)
    by apply firstn_le_length.
  split; [exact L|]. split; [apply select_notifications_In|]. split.
  - etransitivity; [apply filter_length_le|exact L].
  - intros Hfew. unfold select_notifications.
    rewrite firstn_all2 by (now rewrite order_created_at_desc_length).
    rewrite order_created_at_desc_count. now rewrite filter_filter_and.
Qed.

(** X16 on a table with two notifications for Alice, one of them unread, and
    one for Bob. *)
Lemma fetchNotifications_window_witness :
  hs_unreadCount
    (fetchNotifications (Some alice)
       [mkRow "N1" 1 (mkNotification (Some alice) (Some "vote") (Some "Upvoted")
                        (Some "m") (Some "Q") None false);
        mkRow "N2" 2 (mkNotification (Some bob) (Some "vote") (Some "Upvoted")
                        (Some "m") None (Some "R1") false);
        mkRow "N3" 3 (mkNotification (Some alice) (Some "answer") (Some "New Answer")
                        (Some "m") (Some "Q") (Some "R1") true)]
       (mkHeader [] 0))
  = 1%nat.
Proof.
  apply (fetchNotifications_window alice
           [mkRow "N1" 1 (mkNotification (Some alice) (Some "vote") (Some "Upvoted")
                            (Some "m") (Some "Q") None false);
            mkRow "N2" 2 (mkNotification (Some bob) (Some "vote") (Some "Upvoted")
                            (Some "m") None (Some "R1") false);
            mkRow "N3" 3 (mkNotification (Some alice) (Some "answer") (Some "New Answer")
                            (Some "m") (Some "Q") (Some "R1") true)]
           (mkHeader [] 0)).
  simpl. lia.
Defined.

(** X17. Right after [markAllAsRead] the unread count that the bell shows is
    zero. *)
Theorem markAllAsRead_clears_unread u tbl st :
  hs_unreadCount (snd (markAllAsRead (Some u) tbl st)) = 0%nat.
Proof.
  unfold markAllAsRead, fetchNotifications. cbn [snd hs_unreadCount].
  rewrite filter_none; [reflexivity|].
  intros r Hr. apply select_notifications_In in Hr. destruct Hr as [Hr Hu].
  apply in_map_iff in Hr. destruct Hr as (r0 & E & _).
  apply negb_false_iff.
  destruct (eq_filter (n_user_id (nr_data r0)) u && Bool.eqb (n_read (nr_data r0)) false)
    eqn:C; subst r.
  - reflexivity.
  - simpl in Hu. rewrite Hu in C. simpl in C. rewrite uuid_eqb_refl in C.
    simpl in C. destruct (n_read (nr_data r0)); [reflexivity|discriminate].
Qed.

Lemma Forall2_map_self {A : Type} (R : A -> A -> Prop) (f : A -> A) (l : list A) :
  (forall x, R x (f x)) -> Forall2 R l (map f l).
Proof.
  intros H. induction l as [|x l IH]; simpl; constructor; auto.
Qed.

(** X18. Marking never turns a read notification back to unread and changes
    no other column: after [markAsRead] and after [markAllAsRead] the table
    has, row for row, the row it had or that row with [read] set.
    [markAllAsRead] leaves the rows of other users as they are, while
    [markAsRead] selects by id alone, whoever the row is addressed to. *)
Theorem marking_only_sets_read user tbl st :
  (forall notificationId,
      Forall2 (fun r r' => r' = r \/ r' = set_read r)
        tbl (fst (markAsRead user notificationId tbl st)))
  /\ Forall2 (fun r r' => r' = r \/ r' = set_read r)
       tbl (fst (markAllAsRead user tbl st))
  /\ (forall r u, user = Some u -> In r tbl -> n_user_id (nr_data r) <> Some u ->
                  In r (fst (markAllAsRead user tbl st)))
  /\ (forall r notificationId, In r tbl -> nr_id r = notificationId ->
                  In (set_read r) (fst (markAsRead user notificationId tbl st))).
Proof.
  split; [|split; [|split]].
  - intros notificationId. unfold markAsRead. cbn [fst].
    apply Forall2_map_self. intros r.
    destruct (uuid_eqb (nr_id r) notificationId); auto.
  - unfold markAllAsRead. destruct user as [u|]; cbn [fst].
    + apply Forall2_map_self. intros r. destruct (_ && _); auto.
    + rewrite <- (map_id tbl) at 2. apply Forall2_map_self. auto.
  - intros r u -> Hr Hne. unfold markAllAsRead. cbn [fst].
    apply in_map_iff. exists r. split; [|exact Hr].
    destruct (n_user_id (nr_data r)) as [o|] eqn:E; simpl; [|reflexivity].
    destruct (uuid_eqb o u) eqn:Eo; [|reflexivity].
    apply uuid_eqb_eq in Eo. subst o. contradiction.
  - intros r notificationId Hr Hid. unfold markAsRead. cbn [fst].
    apply in_map_iff. exists r. split; [|exact Hr].
    rewrite Hid, uuid_eqb_refl. reflexivity.
Qed.

(** X19. Marking is idempotent: a second [markAsRead] of the same
    notification, and a second [markAllAsRead], leave the table and what the
    bell shows as the first call left them. *)
Theorem marking_twice user tbl st :
  (forall notificationId,
      let r := markAsRead user notificationId tbl st in
      markAsRead user notificationId (fst r) (snd r) = r)
  /\ (let r := markAllAsRead user tbl st in
      markAllAsRead user (fst r) (snd r) = r).
Proof.
  split.
  - intros notificationId r. subst r. unfold markAsRead. cbn [fst snd].
    assert (E : map (fun r => if uuid_eqb (nr_id r) notificationId then set_read r else r)
                  (map (fun r => if uuid_eqb (nr_id r) notificationId
                                 then set_read r else r) tbl)
                = map (fun r => if uuid_eqb (nr_id r) notificationId
                                then set_read r else r) tbl).
    { rewrite map_map. apply map_ext. intros r.
      destruct (uuid_eqb (nr_id r) notificationId) eqn:W; simpl; now rewrite W. }
    rewrite E. f_equal. unfold fetchNotifications. destruct user; reflexivity.
  - intros r. subst r. unfold markAllAsRead. destruct user as [u|]; [|reflexivity].
    cbn [fst snd].
    assert (E : map (fun r => if eq_filter (n_user_id (nr_data r)) u
                                 && Bool.eqb (n_read (nr_data r)) false
                              then set_read r else r)
                  (map (fun r => if eq_filter (n_user_id (nr_data r)) u
                                    && Bool.eqb (n_read (nr_data r)) false
                                 then set_read r else r) tbl)
                = map (fun r => if eq_filter (n_user_id (nr_data r)) u
                                   && Bool.eqb (n_read (nr_data r)) false
                                then set_read r else r) tbl).
    { rewrite map_map. apply map_ext. intros r.
      destruct (eq_filter (n_user_id (nr_data r)) u
                && Bool.eqb (n_read (nr_data r)) false) eqn:W; simpl.
      - now rewrite andb_false_r.
      - now rewrite W. }
    rewrite E. reflexivity.
Qed.

(** ** The tags of a new question *)

Lemma NoDup_snoc {A : Type} (l : list A) (x : A) :
  NoDup l -> ~ In x l -> NoDup (l ++ [x]).
Proof.
  induction l as [|y l IH]; simpl; intros Hnd Hnot.
  - constructor; [intros []|constructor].
  - inversion Hnd as [|? ? Hy Hl]; subst. constructor.
    + intros H. apply in_app_or in H. destruct H as [H|[H|[]]].
      * contradiction.
      * apply Hnot. now left.
    + apply IH; [exact Hl|]. intros H. apply Hnot. now right.
Qed.

(** Dropping tags keeps their keys distinct. *)
Lemma distinct_after_filter (key : tag -> text) (keep : tag -> bool) (ts : list tag) :
  NoDup (map key ts) -> NoDup (map key (filter keep ts)).
Proof.
  intros Hnd. induction ts as [|t ts IHts]; simpl; [constructor|].
  simpl in Hnd. apply NoDup_cons_iff in Hnd. destruct Hnd as [Hfresh Hrest].
  destruct (keep t); simpl; [|now apply IHts].
  apply NoDup_cons; [|now apply IHts].
  intros Hin. apply Hfresh. apply in_map_iff in Hin. destruct Hin as (t' & Ek & Ht').
  apply filter_In in Ht'. apply in_map_iff. exists t'. now split.
Qed.

Section TagProperties.

Variable toLowerCase : text -> text.
Variable trim : text -> text.
Variable tags_check : list tag -> tag -> bool.
Variable color_default : text.

(** The ways in which [addTag] ends. *)
Lemma addTag_cases st tbl tagName new_id :
  let r := addTag toLowerCase tags_check color_default st tbl tagName new_id in
  (selectedTags (fst (fst r)) = selectedTags st
   /\ availableTags (fst (fst r)) = availableTags st
   /\ snd (fst r) = tbl)
  \/ (existsb (same_name toLowerCase tagName) (selectedTags st) = false
      /\ exists existingTag,
           same_name toLowerCase tagName existingTag = true
           /\ selectedTags (fst (fst r)) = (selectedTags st ++ [existingTag])%list
           /\ ((In existingTag (availableTags st)
                /\ availableTags (fst (fst r)) = availableTags st
                /\ snd (fst r) = tbl)
               \/ (existingTag = mkTag new_id tagName color_default
                   /\ find (same_name toLowerCase tagName) (availableTags st) = None
                   /\ availableTags (fst (fst r)) = (availableTags st ++ [existingTag])%list
                   /\ snd (fst r) = (tbl ++ [existingTag])%list))).
Proof.
  intros r. subst r. unfold addTag.
  destruct (existsb (same_name toLowerCase tagName) (selectedTags st)) eqn:Sel;
    [left; now repeat split|].
  destruct (find (same_name toLowerCase tagName) (availableTags st)) as [ex|] eqn:F.
  - right. split; [reflexivity|]. exists ex. apply find_some in F. destruct F as [Fin Fn].
    split; [exact Fn|]. split; [reflexivity|]. left. now repeat split.
  - unfold insert_tag. destruct (tags_check tbl _); [|left; now repeat split].
    right. split; [reflexivity|]. eexists. split; [|split; [reflexivity|]].
    + unfold same_name. cbn [t_name]. apply String.eqb_refl.
    + right. now repeat split.
Qed.

(** X20. The selection never holds two tags with the same name up to case:
    [addTag], [handleTagInput] and [removeTag] all keep it so, whether the
    tag was found among the available ones or created. *)
Theorem selected_tags_stay_distinct st tbl tagName key tagToRemove new_id :
  distinct_names toLowerCase st ->
  distinct_names toLowerCase
    (fst (fst (addTag toLowerCase tags_check color_default st tbl tagName new_id)))
  /\ distinct_names toLowerCase
       (fst (fst (handleTagInput toLowerCase trim tags_check color_default key st tbl
                    new_id)))
  /\ distinct_names toLowerCase (removeTag st tagToRemove).
Proof.
  intros Inv.
  assert (Add : forall name,
             distinct_names toLowerCase
               (fst (fst (addTag toLowerCase tags_check color_default st tbl name
                            new_id)))).
  { intros name. unfold distinct_names in *.
    destruct (addTag_cases st tbl name new_id)
      as [(E & _) | (Sel & ex & Hn & E & _)]; cbv zeta in *; rewrite E.
    - exact Inv.
    - rewrite map_app. simpl. apply NoDup_snoc; [exact Inv|].
      intros H. apply in_map_iff in H. destruct H as (t & Et & Ht).
      assert (C : existsb (same_name toLowerCase name) (selectedTags st) = true).
      { apply existsb_exists. exists t. split; [exact Ht|].
        unfold same_name in *. apply String.eqb_eq in Hn. rewrite Et, Hn.
        apply String.eqb_refl. }
      congruence. }
  split; [apply Add|]. split.
  - unfold handleTagInput. destruct (_ && _); [apply Add|exact Inv].
  - unfold distinct_names, removeTag in *. cbn [selectedTags].
    now apply distinct_after_filter.
Qed.

(** X21. Every selected tag is one of the available tags, and this is kept by
    [addTag] and [removeTag]; [addTag] adds a row to the tags table only for a
    name that, up to case, is neither selected nor available, and then
    exactly one row, with that name as typed. *)
Theorem selected_tags_are_available st tbl tagName tagToRemove new_id :
  incl (selectedTags st) (availableTags st) ->
  let r := addTag toLowerCase tags_check color_default st tbl tagName new_id in
  incl (selectedTags (fst (fst r))) (availableTags (fst (fst r)))
  /\ incl (selectedTags (removeTag st tagToRemove))
          (availableTags (removeTag st tagToRemove))
  /\ (snd (fst r) = tbl
      \/ (snd (fst r) = (tbl ++ [mkTag new_id tagName color_default])%list
          /\ existsb (same_name toLowerCase tagName) (selectedTags st) = false
          /\ find (same_name toLowerCase tagName) (availableTags st) = None)).
Proof.
  intros Inv r. split; [|split].
  - destruct (addTag_cases st tbl tagName new_id)
      as [(E1 & E2 & _) | (_ & ex & _ & E1 & [(Hin & E2 & _) | (_ & _ & E2 & _)])];
      cbv zeta in *; fold r in E1, E2; rewrite E1, E2.
    + exact Inv.
    + intros t Ht. apply in_app_or in Ht. destruct Ht as [Ht|[<-|[]]]; auto.
    + intros t Ht. apply in_or_app. apply in_app_or in Ht.
      destruct Ht as [Ht|Ht]; auto.
  - unfold removeTag. cbn [selectedTags availableTags].
    intros t Ht. apply filter_In in Ht. apply Inv, Ht.
  - destruct (addTag_cases st tbl tagName new_id)
      as [(_ & _ & E) | (Sel & ex & _ & _ & [(_ & _ & E) | (-> & F & _ & E)])];
      cbv zeta in *; fold r in E.
    + now left.
    + now left.
    + right. now repeat split.
Qed.

End TagProperties.

(** X20 and X21 on a form where the tag sorting is selected: the user types
    Lists, which no tag is called yet. *)
Lemma selected_tags_stay_distinct_witness :
  distinct_names (fun s => s)
    (fst (fst (addTag (fun s => s) (fun _ _ => true) "#3B82F6"
                 (mkTags [mkTag "T1" "sorting" "#3B82F6"]
                         [mkTag "T1" "sorting" "#3B82F6"] "Lists")
                 [mkTag "T1" "sorting" "#3B82F6"] "Lists" "T2"))).
Proof.
  apply (selected_tags_stay_distinct (fun s => s) (fun s => s) (fun _ _ => true)
           "#3B82F6"
           (mkTags [mkTag "T1" "sorting" "#3B82F6"]
                   [mkTag "T1" "sorting" "#3B82F6"] "Lists")
           [mkTag "T1" "sorting" "#3B82F6"] "Lists" "Enter"
           (mkTag "T1" "sorting" "#3B82F6") "T2").
  unfold distinct_names. simpl. repeat constructor. simpl. intuition.
Defined.

Lemma selected_tags_are_available_witness :
  let st := mkTags [mkTag "T1" "sorting" "#3B82F6"]
                   [mkTag "T1" "sorting" "#3B82F6"] "Lists" in
  let tbl := [mkTag "T1" "sorting" "#3B82F6"] in
  let r := addTag (fun s => s) (fun _ _ => true) "#3B82F6" st tbl "Lists" "T2" in
  incl (selectedTags (fst (fst r))) (availableTags (fst (fst r)))
  /\ incl (selectedTags (removeTag st (mkTag "T1" "sorting" "#3B82F6")))
          (availableTags (removeTag st (mkTag "T1" "sorting" "#3B82F6")))
  /\ (snd (fst r) = tbl
      \/ (snd (fst r) = (tbl ++ [mkTag "T2" "Lists" "#3B82F6"])%list
          /\ existsb (same_name (fun s => s) "Lists") (selectedTags st) = false
          /\ find (same_name (fun s => s) "Lists") (availableTags st) = None)).
Proof.
  intros st tbl r.
  apply (selected_tags_are_available (fun s => s) (fun _ _ => true) "#3B82F6"
           st tbl "Lists" (mkTag "T1" "sorting" "#3B82F6") "T2").
  intros t Ht. exact Ht.
Defined.

(** ** Notifications are only ever appended *)

Lemma fire_appends chk db e db' :
  fire chk db e = Ok db' ->
  exists l, notifications db' = (notifications db ++ l)%list /\ (length l <= 1)%nat.
Proof.
  intros H. apply fire_outcome in H. destruct H as [-> | (n & _ & _ & ->)].
  - exists []. rewrite app_nil_r. split; [reflexivity|simpl; lia].
  - exists [n]. split; [reflexivity|simpl; lia].
Qed.

Lemma update_triggers_append chk set_ l :
  forall acc d1,
    fold_left
      (fun acc OLD => db' <- acc ;; trigger_accept_notification chk db' OLD (set_ OLD))
      l acc = Ok d1 ->
    exists d0 added, acc = Ok d0 /\ notifications d1 = (notifications d0 ++ added)%list.
Proof.
  induction l as [|x l IH]; simpl; intros acc d1 H.
  - exists d1, []. now rewrite app_nil_r.
  - apply IH in H. destruct H as (d & added & Hd & Hn).
    destruct acc as [d0|e]; simpl in Hd; [|discriminate].
    apply (fire_appends chk d0 (question_updated x (set_ x))) in Hd.
    destruct Hd as (l0 & Hl0 & _).
    exists d0, (l0 ++ added)%list. split; [reflexivity|].
    now rewrite Hn, Hl0, app_assoc.
Qed.

(** X22. No mutation of the pages removes or rewrites a notification: after
    [handleVote], [acceptAnswer], [submitAnswer] and [handleSubmitComment]
    the notifications are those of before with new rows appended, at most one
    for a vote, an answer or a comment; [handleDeleteComment] leaves them as
    they are. *)
Theorem notifications_append_only chk trim message db :
  (forall user t targetId voteType new_id,
      exists l,
        notifications (handleVote chk user t targetId voteType new_id db)
        = (notifications db ++ l)%list /\ (length l <= 1)%nat)
  /\ (forall user question id answerId,
      exists l,
        notifications (acceptAnswer chk user question id answerId db)
        = (notifications db ++ l)%list)
  /\ (forall user id answerContent new_id,
      exists l,
        notifications
          (fst (fst (submitAnswer chk trim message user id answerContent new_id db)))
        = (notifications db ++ l)%list /\ (length l <= 1)%nat)
  /\ (forall user questionId answerId form new_id,
      exists l,
        notifications
          (fst (fst (handleSubmitComment chk trim message user questionId answerId
                       form new_id db)))
        = (notifications db ++ l)%list /\ (length l <= 1)%nat)
  /\ (forall user commentId,
      notifications (fst (handleDeleteComment user commentId db)) = notifications db).
Proof.
  assert (Same : exists l, notifications db = (notifications db ++ l)%list
                           /\ (length l <= 1)%nat).
  { exists []. rewrite app_nil_r. split; [reflexivity|simpl; lia]. }
  split; [|split; [|split; [|split]]].
  - intros user t targetId voteType new_id. unfold handleVote.
    destruct user as [u|]; [|exact Same].
    destruct (single _) as [ev|].
    + destruct (Z.eqb _ _); exact Same.
    + unfold insert_vote.
      destruct (trigger_vote_notification chk _ _) as [d|e] eqn:E; simpl run;
        [|exact Same].
      apply (fire_appends chk _ (vote_inserted _)) in E. exact E.
  - intros user question id answerId. unfold acceptAnswer.
    destruct user as [u|]; [|exists []; now rewrite app_nil_r].
    destruct question as [q|]; [|exists []; now rewrite app_nil_r].
    destruct (negb _); [exists []; now rewrite app_nil_r|].
    change (notifications (accept_answer_row ?d answerId)) with (notifications d).
    destruct (accept_question chk db id answerId) as [d|e] eqn:E; simpl run;
      [|exists []; now rewrite app_nil_r].
    unfold accept_question, update_questions in E.
    apply update_triggers_append in E. destruct E as (d0 & added & E0 & Hn).
    inversion E0; subst d0. exists added. exact Hn.
  - intros user id answerContent new_id.
    destruct (submitAnswer_cases chk trim message user id answerContent new_id db)
      as [(E & _) | (u & _ & _ & _ & _ & _ & _ & [E | (n & _ & E)] & _)];
      cbv zeta in *.
    + rewrite E. exact Same.
    + rewrite E. exact Same.
    + rewrite E. exists [n]. split; [reflexivity|simpl; lia].
  - intros user questionId answerId form new_id.
    destruct (handleSubmitComment_cases chk trim message user questionId answerId
                form new_id db)
      as [(E & _) | (u & _ & _ & _ & _ & _ & _ & _ & [E | (n & _ & E)] & _)];
      cbv zeta in *.
    + rewrite E. exact Same.
    + rewrite E. exact Same.
    + rewrite E. exists [n]. split; [reflexivity|simpl; lia].
  - intros user commentId. unfold handleDeleteComment.
    destruct user; reflexivity.
Qed.

(** ** A target with more than one vote of the user *)

(** X23. [handleVote] looks the existing vote up with [.single()], which
    gives nothing when several rows match: if the user already has two or
    more votes on the target, a click neither cancels nor replaces any of
    them but runs the insert of one more row.  The row is added, making the
    user's votes on the target one more, whenever the insert goes through,
    which it does for every vote that is not an upvote and for every vote
    when the notifications table accepts all rows; the database is left as it
    was only when the insert is refused. *)
Theorem handleVote_does_not_repair_duplicates chk u t targetId voteType new_id db :
  (2 <= length (votes_of db u t targetId))%nat ->
  let row :=
    match t with
    | target_question => mkVote new_id u (Some targetId) None voteType
    | target_answer => mkVote new_id u None (Some targetId) voteType
    end in
  let db' := handleVote chk (Some u) t targetId voteType new_id db in
  db' = run db (insert_vote chk db row)
  /\ (forall d, insert_vote chk db row = Ok d ->
                votes db' = (votes db ++ [row])%list
                /\ votes_of db' u t targetId = (votes_of db u t targetId ++ [row])%list)
  /\ (forall e, insert_vote chk db row = Raise e -> db' = db)
  /\ ((forall n, chk n = true) -> votes db' = (votes db ++ [row])%list)
  /\ (voteType <> 1%Z -> votes db' = (votes db ++ [row])%list).
Proof.
  intros Hmany row db'.
  assert (E : db' = run db (insert_vote chk db row)).
  { subst db'. unfold handleVote.
    destruct (votes_of db u t targetId) as [|v1 [|v2 l]]; simpl in Hmany; try lia.
    reflexivity. }
  assert (Ok_votes : forall d, insert_vote chk db row = Ok d ->
                               votes d = (votes db ++ [row])%list).
  { intros d H. unfold insert_vote in H. apply trigger_vote_same_content in H.
    now destruct H as (_ & _ & Hv & _). }
  split; [exact E|]. rewrite E. split; [|split; [|split]].
  - intros d H. rewrite H. simpl run. pose proof (Ok_votes d H) as Hv.
    split; [exact Hv|]. unfold votes_of. rewrite Hv, filter_app. f_equal.
    simpl. subst row. destruct t; simpl; unfold uuid_eqb; now rewrite !String.eqb_refl.
  - intros e H. now rewrite H.
  - intros Hall. unfold insert_vote.
    destruct (fire_decided (set_votes (votes db ++ [row]) db) (vote_inserted row))
      as [H | (n & H)]; cbn [fire] in H; rewrite H.
    + reflexivity.
    + rewrite Hall. reflexivity.
  - intros Hnot. unfold insert_vote, trigger_vote_notification,
      create_vote_notification.
    assert (V : sql_true (sql_eq_int (Some (v_vote_type row)) (Some 1%Z)) = false).
    { assert (Hty : v_vote_type row = voteType) by (subst row; now destruct t).
      simpl. rewrite Hty. apply Z.eqb_neq in Hnot. now rewrite Hnot. }
    rewrite V. reflexivity.
Qed.

(** X23 on the forum with two upvotes of Alice on R1: she clicks the up arrow
    again. *)
Lemma handleVote_does_not_repair_duplicates_witness :
  let db := set_votes [mkVote "V1" alice None (Some "R1") 1;
                       mkVote "V2" alice None (Some "R1") 1] forum in
  votes (handleVote unconstrained (Some alice) target_answer "R1" 1 "V3" db)
  = [mkVote "V1" alice None (Some "R1") 1;
     mkVote "V2" alice None (Some "R1") 1;
     mkVote "V3" alice None (Some "R1") 1].
Proof.
  intros db.
  apply (proj1 (proj2 (proj2 (proj2
           (handleVote_does_not_repair_duplicates unconstrained alice target_answer
              "R1" 1%Z "V3" db ltac:(simpl; lia)))))).
  reflexivity.
Defined.

(** ** The accepted flags under every mutation of the pages *)



